(** * Polyglot chat: the database schema and the chat client

    A shallow embedding of the two pieces of the repository:

    - the PostgreSQL initialisation script (tables [users], [sessions],
      [messages], their CHECK / UNIQUE / FOREIGN KEY constraints, the
      trigger functions [update_updated_at_column] and
      [update_session_message_count] and the [CREATE TRIGGER] statements);
    - the React page [Home] of [app/page.tsx] with its [handleSubmit]
      handler, and the [ChatInput] form that calls it.

    Definitions come first, the facts proved about them afterwards. *)

From Stdlib Require Import List ZArith NArith Bool String Ascii Lia.
From Stdlib Require Import Permutation Sorted.
Import ListNotations.

Local Open Scope Z_scope.

(* ===================================================================== *)
(** ** Text *)
(* ===================================================================== *)

Module Text.

(** A text value is a sequence of characters, each given by its number
    (a Unicode code point for SQL [TEXT]/[VARCHAR], a UTF-16 code unit
    for a JavaScript string). *)
Definition text := list N.

Definition char_of (a : ascii) : N := N_of_ascii a.

(** The text of a literal of the source, all of which are ASCII. *)
Fixpoint lit (s : string) : text :=
  match s with
  | EmptyString => []
  | String a s' => char_of a :: lit s'
  end.

Fixpoint eqb (a b : text) : bool :=
  match a, b with
  | [], [] => true
  | x :: a', y :: b' => N.eqb x y && eqb a' b'
  | _, _ => false
  end.

Definition is_in (v : text) (vs : list text) : bool := existsb (eqb v) vs.

(** Longest prefix of characters satisfying [p] removed. *)
Fixpoint drop_while (p : N -> bool) (s : text) : text :=
  match s with
  | [] => []
  | c :: s' => if p c then drop_while p s' else s
  end.

(** Characters satisfying [p] removed from both ends. *)
Definition strip (p : N -> bool) (s : text) : text :=
  rev (drop_while p (rev (drop_while p s))).

Definition in_range (lo hi c : N) : bool := (N.leb lo c && N.leb c hi)%bool.

Definition upper (c : N) : bool := in_range 65 90 c.
Definition lower (c : N) : bool := in_range 97 122 c.
Definition digit (c : N) : bool := in_range 48 57 c.
Definition alpha (c : N) : bool := upper c || lower c.
Definition one_of (s : string) (c : N) : bool := existsb (N.eqb c) (lit s).

End Text.

(* ===================================================================== *)
(** ** Regular expressions (for the [users_email_format] check) *)
(* ===================================================================== *)

Module Regex.
Import Text.

Inductive regex : Type :=
| Empty                          (* matches nothing *)
| Eps                            (* matches the empty text *)
| Class (p : N -> bool)          (* one character of a bracket expression *)
| Cat (r1 r2 : regex)
| Alt (r1 r2 : regex)
| Star (r : regex).

Definition Plus (r : regex) : regex := Cat r (Star r).          (* r+    *)
Definition AtLeast2 (r : regex) : regex := Cat r (Cat r (Star r)). (* r{2,} *)

Fixpoint nullable (r : regex) : bool :=
  match r with
  | Empty => false
  | Eps => true
  | Class _ => false
  | Cat r1 r2 => nullable r1 && nullable r2
  | Alt r1 r2 => nullable r1 || nullable r2
  | Star _ => true
  end.

(** Brzozowski derivative of [r] by the character [c]. *)
Fixpoint deriv (c : N) (r : regex) : regex :=
  match r with
  | Empty => Empty
  | Eps => Empty
  | Class p => if p c then Eps else Empty
  | Cat r1 r2 =>
      if nullable r1
      then Alt (Cat (deriv c r1) r2) (deriv c r2)
      else Cat (deriv c r1) r2
  | Alt r1 r2 => Alt (deriv c r1) (deriv c r2)
  | Star r1 => Cat (deriv c r1) (Star r1)
  end.

(** [matches r s]: the whole of [s] matches [r], i.e. [s ~ '^r$']. *)
Fixpoint matches (r : regex) (s : text) : bool :=
  match s with
  | [] => nullable r
  | c :: s' => matches (deriv c r) s'
  end.

(** The texts a regular expression stands for. *)
Inductive lang : regex -> text -> Prop :=
| lang_Eps : lang Eps []
| lang_Class p c : p c = true -> lang (Class p) [c]
| lang_Cat r1 r2 s1 s2 :
    lang r1 s1 -> lang r2 s2 -> lang (Cat r1 r2) (s1 ++ s2)
| lang_Alt_l r1 r2 s : lang r1 s -> lang (Alt r1 r2) s
| lang_Alt_r r1 r2 s : lang r2 s -> lang (Alt r1 r2) s
| lang_Star_nil r : lang (Star r) []
| lang_Star_more r s1 s2 :
    lang r s1 -> lang (Star r) s2 -> lang (Star r) (s1 ++ s2).

End Regex.

(* ===================================================================== *)
(** ** The relational schema *)
(* ===================================================================== *)

Module Sql.
Import Text.

(** Column types.  [UUID] and [TIMESTAMP WITH TIME ZONE] are numbers,
    [INTEGER] is a [Z] whose arithmetic raises outside the 32-bit range, a
    [NOT NULL] column is a plain value and a nullable one an [option].
    A [VARCHAR(n)] column takes a text of at most [n] characters: a
    statement that would store a longer one raises
    string_data_right_truncation (22001) before any CHECK is looked at.
    (Excess that is made of spaces only is cut off by the assignment
    cast; the rows of the statements below are the rows after that
    cast.) *)
Definition uuid := N.
Definition timestamptz := Z.
Definition jsonb := text.

(** SQLSTATE classes a statement of the script's tables can raise. *)
Inductive error : Type :=
| check_violation (constraint : string)
| unique_violation (constraint : string)
| foreign_key_violation (constraint : string)
| numeric_value_out_of_range
| string_data_right_truncation
| not_null_violation.


Inductive result (A : Type) : Type :=
| Ok (a : A)
| Err (e : error).
Arguments Ok {A} a.
Arguments Err {A} e.

Definition bind {A B} (r : result A) (k : A -> result B) : result B :=
  match r with
  | Ok a => k a
  | Err e => Err e
  end.

Notation "x <- r ;; k" := (bind r (fun x => k))
  (at level 61, r at next level, right associativity).

Definition require (ok : bool) (e : error) : result unit :=
  if ok then Ok tt else Err e.

(** [INTEGER] addition and subtraction: out of range is an error. *)
Definition int4_min : Z := - 2147483648.
Definition int4_max : Z := 2147483647.
Definition int4 (z : Z) : result Z :=
  if (int4_min <=? z) && (z <=? int4_max) then Ok z
  else Err numeric_value_out_of_range.
Definition int4pl (a b : Z) : result Z := int4 (a + b).
Definition int4mi (a b : Z) : result Z := int4 (a - b).

(** [VARCHAR(n)]: at most [n] characters. *)
Definition varchar (n : nat) (s : text) : bool := (List.length s <=? n)%nat.

Definition varchar_or_null (n : nat) (s : option text) : bool :=
  match s with
  | None => true
  | Some v => varchar n v
  end.

(** CHECK constraints of a table are evaluated in the order of their
    names; the first one that is false is the one reported. *)
Fixpoint first_violation (cs : list (string * bool)) : result unit :=
  match cs with
  | [] => Ok tt
  | (name, holds) :: cs' =>
      if holds then first_violation cs' else Err (check_violation name)
  end.

(** *** users *)
Module Users.

Record row : Type := mk {
  id : uuid;
  username : text;
  email : text;
  password_hash : text;
  is_active : bool;
  native_language : text;
  target_language : text;
  proficiency_level : text;
  created_at : option timestamptz;
  updated_at : option timestamptz
}.

(** The row an [INSERT] builds when it names only the columns without a
    default; [new_id] is the value of [uuid_generate_v4()], [now] that of
    [NOW()]. *)
Definition defaults (new_id : uuid) (now : timestamptz)
    (username email password_hash : text) : row :=
  mk new_id username email password_hash true (lit "TR") (lit "EN")
     (lit "beginner") (Some now) (Some now).

Definition set_updated_at (t : option timestamptz) (r : row) : row :=
  mk (id r) (username r) (email r) (password_hash r) (is_active r)
     (native_language r) (target_language r) (proficiency_level r)
     (created_at r) t.

(** The values fit the [VARCHAR(n)] columns of [users]. *)
Definition fits (r : row) : bool :=
  varchar 50 (username r) && varchar 255 (email r)
  && varchar 255 (password_hash r) && varchar 10 (native_language r)
  && varchar 10 (target_language r) && varchar 20 (proficiency_level r).

(** The two rows agree on every column but [updated_at]. *)
Definition same_other_columns (a b : row) : Prop :=
  id a = id b /\ username a = username b /\ email a = email b
  /\ password_hash a = password_hash b /\ is_active a = is_active b
  /\ native_language a = native_language b
  /\ target_language a = target_language b
  /\ proficiency_level a = proficiency_level b
  /\ created_at a = created_at b.

(** The sample user of the script's development data. *)
Definition demo_user (new_id : uuid) (now : timestamptz) : row :=
  mk new_id (lit "demo_user") (lit "demo@example.com")
     (lit "$2b$12$LQv3c1yqBw2LeOiMi9rXaOEkVxaAhBxQHjLvukJUnQ.xHjLiOzZui")
     true (lit "TR") (lit "EN") (lit "A2") (Some now) (Some now).

(** [CHECK (LENGTH(username) >= 3)] *)
Definition users_username_length (r : row) : bool :=
  (3 <=? List.length (username r))%nat.

(** ['^[A-Za-z0-9._%+-]+@[A-Za-z0-9.-]+\.[A-Za-z]{2,}$'].  The match is
    case-insensitive ([~*]); every letter class of the pattern already
    holds both cases. *)
Definition email_local (c : N) : bool := alpha c || digit c || one_of "._%+-" c.
Definition email_domain (c : N) : bool := alpha c || digit c || one_of ".-" c.
Definition email_pattern : Regex.regex :=
  Regex.Cat (Regex.Plus (Regex.Class email_local))
    (Regex.Cat (Regex.Class (one_of "@"))
       (Regex.Cat (Regex.Plus (Regex.Class email_domain))
          (Regex.Cat (Regex.Class (one_of "."))
             (Regex.AtLeast2 (Regex.Class alpha))))).

(** [CHECK (email ~* pattern)] *)
Definition users_email_format (r : row) : bool :=
  Regex.matches email_pattern (email r).

(** [CHECK (native_language != target_language)] *)
Definition users_different_languages (r : row) : bool :=
  negb (eqb (native_language r) (target_language r)).

(** [CHECK (proficiency_level IN (...))] *)
Definition users_valid_proficiency (r : row) : bool :=
  is_in (proficiency_level r)
    (map lit ["beginner"; "intermediate"; "advanced"; "native";
              "A1"; "A2"; "B1"; "B2"; "C1"; "C2"]%string).

Definition checks (r : row) : list (string * bool) :=
  [ ("users_different_languages", users_different_languages r);
    ("users_email_format", users_email_format r);
    ("users_username_length", users_username_length r);
    ("users_valid_proficiency", users_valid_proficiency r) ]%string.

End Users.

(** *** sessions *)
Module Sessions.

Record row : Type := mk {
  id : uuid;
  user_id : uuid;
  title : text;
  session_type : text;
  status : text;
  source_language : text;
  target_language : text;
  message_count : Z;
  mode : option text;
  level : option text;
  is_active : option bool;
  summary : option text;
  created_at : option timestamptz;
  updated_at : option timestamptz
}.

(** The row of [INSERT INTO sessions (user_id) VALUES (...)]: every other
    column takes its default, [message_count] among them ([DEFAULT 0]). *)
Definition defaults (new_id : uuid) (now : timestamptz) (user_id : uuid) : row :=
  mk new_id user_id (lit "Chat Session") (lit "conversation") (lit "active")
     (lit "TR") (lit "EN") 0 None None (Some true) None (Some now) (Some now).

Definition set_updated_at (t : option timestamptz) (r : row) : row :=
  mk (id r) (user_id r) (title r) (session_type r) (status r)
     (source_language r) (target_language r) (message_count r) (mode r)
     (level r) (is_active r) (summary r) (created_at r) t.

Definition set_message_count (n : Z) (r : row) : row :=
  mk (id r) (user_id r) (title r) (session_type r) (status r)
     (source_language r) (target_language r) n (mode r)
     (level r) (is_active r) (summary r) (created_at r) (updated_at r).

(** The values fit the [VARCHAR(n)] columns of [sessions]. *)
Definition fits (r : row) : bool :=
  varchar 200 (title r) && varchar 20 (session_type r) && varchar 20 (status r)
  && varchar 10 (source_language r) && varchar 10 (target_language r)
  && varchar_or_null 10 (mode r) && varchar_or_null 5 (level r).

(** The two rows agree on every column but [updated_at]. *)
Definition same_other_columns (a b : row) : Prop :=
  id a = id b /\ user_id a = user_id b /\ title a = title b
  /\ session_type a = session_type b /\ status a = status b
  /\ source_language a = source_language b
  /\ target_language a = target_language b
  /\ message_count a = message_count b /\ mode a = mode b
  /\ level a = level b /\ is_active a = is_active b
  /\ summary a = summary b /\ created_at a = created_at b.

(** The sample session of the script's development data:
    [INSERT INTO sessions (user_id, mode, level, is_active)
     VALUES (demo_user_id, 'CONVERSATION', 'A2', true)]. *)
Definition demo_session (new_id : uuid) (now : timestamptz) (user_id : uuid)
    : row :=
  mk new_id user_id (lit "Chat Session") (lit "conversation") (lit "active")
     (lit "TR") (lit "EN") 0 (Some (lit "CONVERSATION")) (Some (lit "A2"))
     (Some true) None (Some now) (Some now).

(** [x IN (...) OR x IS NULL] *)
Definition in_or_null (x : option text) (vs : list string) : bool :=
  match x with
  | None => true
  | Some v => is_in v (map lit vs)
  end.

Definition sessions_valid_type (r : row) : bool :=
  is_in (session_type r)
    (map lit ["conversation"; "grammar"; "vocabulary"; "pronunciation"]%string).
Definition sessions_valid_status (r : row) : bool :=
  is_in (status r)
    (map lit ["active"; "paused"; "completed"; "archived"]%string).
Definition sessions_valid_mode (r : row) : bool :=
  in_or_null (mode r)
    ["CONVERSATION"; "GRAMMAR"; "VOCABULARY"; "tutor"; "buddy"]%string.
Definition sessions_valid_level (r : row) : bool :=
  in_or_null (level r) ["A1"; "A2"; "B1"; "B2"; "C1"; "C2"]%string.

Definition checks (r : row) : list (string * bool) :=
  [ ("sessions_valid_level", sessions_valid_level r);
    ("sessions_valid_mode", sessions_valid_mode r);
    ("sessions_valid_status", sessions_valid_status r);
    ("sessions_valid_type", sessions_valid_type r) ]%string.

End Sessions.

(** *** messages *)
Module Messages.

Record row : Type := mk {
  id : uuid;
  session_id : uuid;
  message_type : text;
  content : text;
  msg_metadata : option jsonb;
  corrections : option jsonb;
  micro_exercise : option text;
  role : option text;
  created_at : option timestamptz
}.

(** The row of [INSERT INTO messages (session_id, content) VALUES (...)]. *)
Definition defaults (new_id : uuid) (now : timestamptz)
    (session_id : uuid) (content : text) : row :=
  mk new_id session_id (lit "user") content None None None None (Some now).

(** The values fit the [VARCHAR(n)] columns of [messages]. *)
Definition fits (r : row) : bool :=
  varchar 20 (message_type r) && varchar_or_null 10 (role r).

Definition messages_valid_type (r : row) : bool :=
  is_in (message_type r) (map lit ["user"; "assistant"; "system"]%string).
Definition messages_valid_role (r : row) : bool :=
  Sessions.in_or_null (role r) ["USER"; "ASSISTANT"]%string.

(** [TRIM(s)], that is [TRIM(BOTH ' ' FROM s)]: with no character list
    given, only the space character is removed. *)
Definition TRIM (s : text) : text := strip (N.eqb 32) s.

(** The characters usually called white space: space, tab, line feed,
    vertical tab, form feed and carriage return. *)
Definition white_space (c : N) : bool := N.eqb c 32 || in_range 9 13 c.

(** [CHECK (LENGTH(TRIM(content)) > 0)] *)
Definition messages_content_not_empty (r : row) : bool :=
  (0 <? List.length (TRIM (content r)))%nat.

Definition checks (r : row) : list (string * bool) :=
  [ ("messages_content_not_empty", messages_content_not_empty r);
    ("messages_valid_role", messages_valid_role r);
    ("messages_valid_type", messages_valid_type r) ]%string.

End Messages.

Record database : Type := mk_database {
  users : list Users.row;
  sessions : list Sessions.row;
  messages : list Messages.row
}.

Definition empty : database := mk_database [] [] [].

(** *** The script's trigger functions and triggers *)

Inductive trigger_function : Type :=
| fn_update_updated_at_column
| fn_update_session_message_count.

Inductive timing : Type := BEFORE | AFTER.
Inductive tg_op : Type := INSERT | UPDATE | DELETE.
Inductive table : Type := users_table | sessions_table | messages_table.

Record trigger : Type := mk_trigger {
  tgname : string;
  tgtiming : timing;
  tgevent : tg_op;
  tgrelation : table;
  tgfunction : trigger_function
}.

Definition function_eqb (a b : trigger_function) : bool :=
  match a, b with
  | fn_update_updated_at_column, fn_update_updated_at_column => true
  | fn_update_session_message_count, fn_update_session_message_count => true
  | _, _ => false
  end.
Definition timing_eqb (a b : timing) : bool :=
  match a, b with
  | BEFORE, BEFORE | AFTER, AFTER => true
  | _, _ => false
  end.
Definition tg_op_eqb (a b : tg_op) : bool :=
  match a, b with
  | INSERT, INSERT | UPDATE, UPDATE | DELETE, DELETE => true
  | _, _ => false
  end.
Definition table_eqb (a b : table) : bool :=
  match a, b with
  | users_table, users_table
  | sessions_table, sessions_table
  | messages_table, messages_table => true
  | _, _ => false
  end.

(** The statements of the script that define functions and triggers.  A
    function body is a string constant; the script writes it between an
    opening and a closing delimiter, kept here as written. *)
Inductive ddl : Type :=
| CREATE_OR_REPLACE_FUNCTION (f : trigger_function) (opening closing : string)
| DROP_TRIGGER_IF_EXISTS (name : string) (on : table)
| CREATE_TRIGGER (t : trigger).

Definition update_users_updated_at : trigger :=
  mk_trigger "update_users_updated_at" BEFORE UPDATE users_table
             fn_update_updated_at_column.
Definition update_sessions_updated_at : trigger :=
  mk_trigger "update_sessions_updated_at" BEFORE UPDATE sessions_table
             fn_update_updated_at_column.
Definition trigger_update_session_message_count_insert : trigger :=
  mk_trigger "trigger_update_session_message_count_insert" AFTER INSERT
             messages_table fn_update_session_message_count.
Definition trigger_update_session_message_count_delete : trigger :=
  mk_trigger "trigger_update_session_message_count_delete" AFTER DELETE
             messages_table fn_update_session_message_count.

(** Section "Create Functions and Triggers" of the script, in its order.
    [update_updated_at_column] is written [AS $$ ... $$ language 'plpgsql'],
    [update_session_message_count] is written [AS $ ... $ language 'plpgsql']. *)
Definition script : list ddl :=
  [ CREATE_OR_REPLACE_FUNCTION fn_update_updated_at_column "$$" "$$";
    DROP_TRIGGER_IF_EXISTS "update_users_updated_at" users_table;
    CREATE_TRIGGER update_users_updated_at;
    DROP_TRIGGER_IF_EXISTS "update_sessions_updated_at" sessions_table;
    CREATE_TRIGGER update_sessions_updated_at;
    CREATE_OR_REPLACE_FUNCTION fn_update_session_message_count "$" "$";
    DROP_TRIGGER_IF_EXISTS "trigger_update_session_message_count_insert"
                           messages_table;
    CREATE_TRIGGER trigger_update_session_message_count_insert;
    DROP_TRIGGER_IF_EXISTS "trigger_update_session_message_count_delete"
                           messages_table;
    CREATE_TRIGGER trigger_update_session_message_count_delete ].

(** PostgreSQL's dollar-quote delimiter: [$], an optional tag (a letter
    or underscore, then letters, digits or underscores), and [$] again.
    A lone [$] opens no string constant. *)
Definition dolq_start (a : ascii) : bool :=
  let c := char_of a in alpha c || N.eqb c 95 || N.leb 128 c.
Definition dolq_cont (a : ascii) : bool :=
  dolq_start a || digit (char_of a).

Fixpoint dolq_tag (first : bool) (s : string) : bool :=
  match s with
  | EmptyString => false
  | String a EmptyString => Ascii.eqb a "$"
  | String a rest =>
      (if first then dolq_start a else dolq_cont a) && dolq_tag false rest
  end.

Definition dolqdelim (s : string) : bool :=
  match s with
  | String a rest => Ascii.eqb a "$" && dolq_tag true rest
  | EmptyString => false
  end.

Record catalog : Type := mk_catalog {
  functions : list trigger_function;
  triggers : list trigger
}.

Definition same_trigger (name : string) (on : table) (t : trigger) : bool :=
  String.eqb (tgname t) name && table_eqb (tgrelation t) on.

(** One statement of the script against the catalog.  A statement that
    raises leaves the catalog as it was: [CREATE FUNCTION] whose body is
    not a string constant is a syntax error, [CREATE TRIGGER] needs its
    function to exist and its name to be free on the table. *)
Definition run_ddl (c : catalog) (d : ddl) : catalog :=
  match d with
  | CREATE_OR_REPLACE_FUNCTION f opening closing =>
      if dolqdelim opening && String.eqb opening closing
      then mk_catalog
             (f :: filter (fun g => negb (function_eqb f g)) (functions c))
             (triggers c)
      else c
  | DROP_TRIGGER_IF_EXISTS name on =>
      mk_catalog (functions c)
                 (filter (fun t => negb (same_trigger name on t)) (triggers c))
  | CREATE_TRIGGER t =>
      if existsb (function_eqb (tgfunction t)) (functions c)
         && negb (existsb (same_trigger (tgname t) (tgrelation t)) (triggers c))
      then mk_catalog (functions c) (triggers c ++ [t])
      else c
  end.

(** The catalog of a database initialised by the script. *)
Definition installed : catalog :=
  fold_left run_ddl script (mk_catalog [] []).

(** The triggers the script names, all four of them. *)
Definition declared : list trigger :=
  [ update_users_updated_at; update_sessions_updated_at;
    trigger_update_session_message_count_insert;
    trigger_update_session_message_count_delete ].

Definition fires (tgs : list trigger) (w : timing) (op : tg_op) (on : table)
    (f : trigger_function) : bool :=
  existsb (fun t => timing_eqb (tgtiming t) w && tg_op_eqb (tgevent t) op
                    && table_eqb (tgrelation t) on
                    && function_eqb (tgfunction t) f) tgs.

(** *** update_updated_at_column

    [NEW.updated_at = NOW(); RETURN NEW;] for whichever table the trigger
    is attached to. *)
Class UpdatedAt (R : Type) : Type :=
  assign_updated_at : option timestamptz -> R -> R.
#[export] Instance users_updated_at : UpdatedAt Users.row := Users.set_updated_at.
#[export] Instance sessions_updated_at : UpdatedAt Sessions.row :=
  Sessions.set_updated_at.

Definition update_updated_at_column {R : Type} `{UpdatedAt R}
    (now : timestamptz) (NEW : R) : R :=
  assign_updated_at (Some now) NEW.

(** *** Statements

    A statement runs against the triggers [tgs] of the catalog at the
    time [now] (the value of [NOW()]).  [UPDATE] and [DELETE] address one
    row by its primary key ([WHERE id = k]). *)
Section Statements.

Variable tgs : list trigger.
Variable now : timestamptz.

(** [BEFORE UPDATE ... FOR EACH ROW EXECUTE FUNCTION
    update_updated_at_column()], where such a trigger exists on the table. *)
Definition before_update {R : Type} `{UpdatedAt R} (on : table) (NEW : R) : R :=
  if fires tgs BEFORE UPDATE on fn_update_updated_at_column
  then update_updated_at_column now NEW
  else NEW.

Definition user_is (k : uuid) (u : Users.row) : bool := N.eqb (Users.id u) k.
Definition session_is (k : uuid) (s : Sessions.row) : bool := N.eqb (Sessions.id s) k.
Definition message_is (k : uuid) (m : Messages.row) : bool := N.eqb (Messages.id m) k.
Definition session_of (k : uuid) (s : Sessions.row) : bool :=
  N.eqb (Sessions.user_id s) k.
Definition message_of (k : uuid) (m : Messages.row) : bool :=
  N.eqb (Messages.session_id m) k.

Definition others {R : Type} (is_row : R -> bool) (rows : list R) : list R :=
  filter (fun r => negb (is_row r)) rows.

Definition replace {R : Type} (is_row : R -> bool) (NEW : R) (rows : list R)
    : list R :=
  map (fun r => if is_row r then NEW else r) rows.

Definition insert_users (r : Users.row) (db : database) : result database :=
  _ <- require (Users.fits r) string_data_right_truncation ;;
  _ <- first_violation (Users.checks r) ;;
  _ <- require (negb (existsb (user_is (Users.id r)) (users db)))
               (unique_violation "users_pkey") ;;
  _ <- require (negb (existsb (fun u => eqb (Users.username u) (Users.username r))
                              (users db)))
               (unique_violation "users_username_key") ;;
  _ <- require (negb (existsb (fun u => eqb (Users.email u) (Users.email r))
                              (users db)))
               (unique_violation "users_email_key") ;;
  Ok (mk_database (users db ++ [r]) (sessions db) (messages db)).

Definition update_users (k : uuid) (set : Users.row -> Users.row)
    (db : database) : result database :=
  match find (user_is k) (users db) with
  | None => Ok db
  | Some OLD =>
      _ <- require (Users.fits (set OLD)) string_data_right_truncation ;;
      let NEW := before_update users_table (set OLD) in
      let rest := others (user_is k) (users db) in
      _ <- first_violation (Users.checks NEW) ;;
      _ <- require (negb (existsb (user_is (Users.id NEW)) rest))
                   (unique_violation "users_pkey") ;;
      _ <- require (negb (existsb (fun u => eqb (Users.username u)
                                                (Users.username NEW)) rest))
                   (unique_violation "users_username_key") ;;
      _ <- require (negb (existsb (fun u => eqb (Users.email u) (Users.email NEW))
                                  rest))
                   (unique_violation "users_email_key") ;;
      _ <- require (N.eqb (Users.id NEW) k
                    || negb (existsb (session_of k) (sessions db)))
                   (foreign_key_violation "sessions_user_id_fkey") ;;
      Ok (mk_database (replace (user_is k) NEW (users db))
                      (sessions db) (messages db))
  end.

Definition insert_sessions (r : Sessions.row) (db : database) : result database :=
  _ <- require (Sessions.fits r) string_data_right_truncation ;;
  _ <- first_violation (Sessions.checks r) ;;
  _ <- require (negb (existsb (session_is (Sessions.id r)) (sessions db)))
               (unique_violation "sessions_pkey") ;;
  _ <- require (existsb (user_is (Sessions.user_id r)) (users db))
               (foreign_key_violation "sessions_user_id_fkey") ;;
  Ok (mk_database (users db) (sessions db ++ [r]) (messages db)).

(** [set] evaluates the [SET] list on the old row; its arithmetic can
    raise. *)
Definition update_sessions (k : uuid)
    (set : Sessions.row -> result Sessions.row) (db : database)
    : result database :=
  match find (session_is k) (sessions db) with
  | None => Ok db
  | Some OLD =>
      assigned <- set OLD ;;
      _ <- require (Sessions.fits assigned) string_data_right_truncation ;;
      let NEW := before_update sessions_table assigned in
      let rest := others (session_is k) (sessions db) in
      _ <- first_violation (Sessions.checks NEW) ;;
      _ <- require (negb (existsb (session_is (Sessions.id NEW)) rest))
                   (unique_violation "sessions_pkey") ;;
      _ <- require (N.eqb (Sessions.user_id NEW) (Sessions.user_id OLD)
                    || existsb (user_is (Sessions.user_id NEW)) (users db))
                   (foreign_key_violation "sessions_user_id_fkey") ;;
      _ <- require (N.eqb (Sessions.id NEW) k
                    || negb (existsb (message_of k) (messages db)))
                   (foreign_key_violation "messages_session_id_fkey") ;;
      Ok (mk_database (users db) (replace (session_is k) NEW (sessions db))
                      (messages db))
  end.

(** *** update_session_message_count

    The body of the trigger function: [row] is [NEW] for an insert and
    [OLD] for a delete.  Any other [TG_OP] falls through to
    [RETURN NULL]. *)
Definition update_session_message_count (TG_OP : tg_op) (row : Messages.row)
    (db : database) : result database :=
  match TG_OP with
  | INSERT =>
      update_sessions (Messages.session_id row)
        (fun s =>
           n <- int4pl (Sessions.message_count s) 1 ;;
           Ok (Sessions.set_updated_at (Some now)
                 (Sessions.set_message_count n s)))
        db
  | DELETE =>
      update_sessions (Messages.session_id row)
        (fun s =>
           n <- int4mi (Sessions.message_count s) 1 ;;
           Ok (Sessions.set_updated_at (Some now)
                 (Sessions.set_message_count (Z.max n 0) s)))
        db
  | UPDATE => Ok db
  end.

(** The [AFTER ... ON messages FOR EACH ROW] triggers of the catalog. *)
Definition after_messages (op : tg_op) (row : Messages.row) (db : database)
    : result database :=
  if fires tgs AFTER op messages_table fn_update_session_message_count
  then update_session_message_count op row db
  else Ok db.

Fixpoint after_each (op : tg_op) (rows : list Messages.row) (db : database)
    : result database :=
  match rows with
  | [] => Ok db
  | r :: rows' => db' <- after_messages op r db ;; after_each op rows' db'
  end.

Definition insert_messages (r : Messages.row) (db : database) : result database :=
  _ <- require (Messages.fits r) string_data_right_truncation ;;
  _ <- first_violation (Messages.checks r) ;;
  _ <- require (negb (existsb (message_is (Messages.id r)) (messages db)))
               (unique_violation "messages_pkey") ;;
  _ <- require (existsb (session_is (Messages.session_id r)) (sessions db))
               (foreign_key_violation "messages_session_id_fkey") ;;
  after_messages INSERT r
    (mk_database (users db) (sessions db) (messages db ++ [r])).

Definition update_messages (k : uuid) (set : Messages.row -> Messages.row)
    (db : database) : result database :=
  match find (message_is k) (messages db) with
  | None => Ok db
  | Some OLD =>
      let NEW := set OLD in
      let rest := others (message_is k) (messages db) in
      _ <- require (Messages.fits NEW) string_data_right_truncation ;;
      _ <- first_violation (Messages.checks NEW) ;;
      _ <- require (negb (existsb (message_is (Messages.id NEW)) rest))
                   (unique_violation "messages_pkey") ;;
      _ <- require (N.eqb (Messages.session_id NEW) (Messages.session_id OLD)
                    || existsb (session_is (Messages.session_id NEW)) (sessions db))
                   (foreign_key_violation "messages_session_id_fkey") ;;
      after_messages UPDATE NEW
        (mk_database (users db) (sessions db)
                     (replace (message_is k) NEW (messages db)))
  end.

Definition delete_messages (k : uuid) (db : database) : result database :=
  after_each DELETE (filter (message_is k) (messages db))
    (mk_database (users db) (sessions db) (others (message_is k) (messages db))).

(** [sessions.id] is referenced by [messages.session_id ... ON DELETE
    CASCADE]: the messages of a deleted session are deleted with it, and
    their [AFTER DELETE] triggers run. *)
Definition delete_sessions (k : uuid) (db : database) : result database :=
  if existsb (session_is k) (sessions db) then
    after_each DELETE (filter (message_of k) (messages db))
      (mk_database (users db) (others (session_is k) (sessions db))
                   (others (message_of k) (messages db)))
  else Ok db.

(** [users.id] is referenced by [sessions.user_id ... ON DELETE CASCADE],
    and each session deleted that way cascades to its messages. *)
Definition delete_users (k : uuid) (db : database) : result database :=
  if existsb (user_is k) (users db) then
    let gone := filter (session_of k) (sessions db) in
    let orphan m := existsb (fun s => message_of (Sessions.id s) m) gone in
    after_each DELETE (filter orphan (messages db))
      (mk_database (others (user_is k) (users db))
                   (others (session_of k) (sessions db))
                   (others orphan (messages db)))
  else Ok db.

End Statements.

Inductive statement : Type :=
| INSERT_INTO_users (r : Users.row)
| UPDATE_users (k : uuid) (set : Users.row -> Users.row)
| DELETE_FROM_users (k : uuid)
| INSERT_INTO_sessions (r : Sessions.row)
| UPDATE_sessions (k : uuid) (set : Sessions.row -> result Sessions.row)
| DELETE_FROM_sessions (k : uuid)
| INSERT_INTO_messages (r : Messages.row)
| UPDATE_messages (k : uuid) (set : Messages.row -> Messages.row)
| DELETE_FROM_messages (k : uuid).

Definition run (tgs : list trigger) (now : timestamptz) (st : statement)
    (db : database) : result database :=
  match st with
  | INSERT_INTO_users r => insert_users r db
  | UPDATE_users k set => update_users tgs now k set db
  | DELETE_FROM_users k => delete_users tgs now k db
  | INSERT_INTO_sessions r => insert_sessions r db
  | UPDATE_sessions k set => update_sessions tgs now k set db
  | DELETE_FROM_sessions k => delete_sessions tgs now k db
  | INSERT_INTO_messages r => insert_messages tgs now r db
  | UPDATE_messages k set => update_messages tgs now k set db
  | DELETE_FROM_messages k => delete_messages tgs now k db
  end.

(** A statement that raises is rolled back: the database is the one it
    started from, and the error goes to the caller. *)
Definition execute (tgs : list trigger) (now : timestamptz) (st : statement)
    (db : database) : database * option error :=
  match run tgs now st db with
  | Ok db' => (db', None)
  | Err e => (db, Some e)
  end.

(** A workload: statements with the time each one runs at. *)
Fixpoint execute_all (tgs : list trigger) (w : list (timestamptz * statement))
    (db : database) : database :=
  match w with
  | [] => db
  | (now, st) :: w' => execute_all tgs w' (fst (execute tgs now st db))
  end.

(** A workload made of inserts into and deletes from [messages] only. *)
Definition only_messages (w : list (timestamptz * statement)) : bool :=
  forallb (fun x => match snd x with
                    | INSERT_INTO_messages _ | DELETE_FROM_messages _ => true
                    | _ => false
                    end) w.

(** The messages of session [S] in the database. *)
Definition messages_of (S : uuid) (db : database) : list Messages.row :=
  filter (message_of S) (messages db).

(** The rows of session [S] a workload inserts into, and deletes from,
    [messages]: a statement that raises inserts and deletes nothing. *)
Fixpoint tally (tgs : list trigger) (S : uuid)
    (w : list (timestamptz * statement)) (db : database) : Z * Z :=
  match w with
  | [] => (0, 0)
  | (now, st) :: w' =>
      let (db', raised) := execute tgs now st db in
      let (ins, del) := tally tgs S w' db' in
      match raised, st with
      | None, INSERT_INTO_messages r =>
          if message_of S r then (ins + 1, del) else (ins, del)
      | None, DELETE_FROM_messages k =>
          (ins, del + Z.of_nat (List.length
                                  (filter (message_of S)
                                     (filter (message_is k) (messages db)))))
      | _, _ => (ins, del)
      end
  end.


(** Every row of [new] has the [id] and the [user_id] of a row of [old]. *)
Definition keys_from (old new : list Sessions.row) : Prop :=
  forall s', In s' new ->
    exists s, In s old /\ Sessions.id s' = Sessions.id s
              /\ Sessions.user_id s' = Sessions.user_id s.

(** *** Integrity of a database

    What the PRIMARY KEY, UNIQUE, REFERENCES and CHECK clauses of the
    three tables promise about the rows that are stored. *)

(** [id UUID PRIMARY KEY] on each table, [username ... UNIQUE] and
    [email ... UNIQUE] on [users]. *)
Definition keys_unique (db : database) : Prop :=
  NoDup (map Users.id (users db))
  /\ NoDup (map Users.username (users db))
  /\ NoDup (map Users.email (users db))
  /\ NoDup (map Sessions.id (sessions db))
  /\ NoDup (map Messages.id (messages db)).

(** [user_id ... REFERENCES users(id)] and
    [session_id ... REFERENCES sessions(id)]. *)
Definition references_resolve (db : database) : Prop :=
  (forall s, In s (sessions db) ->
     exists u, In u (users db) /\ Users.id u = Sessions.user_id s)
  /\ (forall m, In m (messages db) ->
        exists s, In s (sessions db) /\ Sessions.id s = Messages.session_id m).

(** Every CHECK of a list holds. *)
Definition all_hold (cs : list (string * bool)) : Prop :=
  forall name holds, In (name, holds) cs -> holds = true.

Definition checks_hold (db : database) : Prop :=
  (forall r, In r (users db) -> all_hold (Users.checks r))
  /\ (forall r, In r (sessions db) -> all_hold (Sessions.checks r))
  /\ (forall r, In r (messages db) -> all_hold (Messages.checks r)).

(** *** Views *)

(** [s.is_active = true]: a NULL flag is not true. *)
Definition IS_TRUE (b : option bool) : bool :=
  match b with
  | Some true => true
  | _ => false
  end.

(** A row of [active_sessions_with_users]. *)
Record active_session : Type := mk_active_session {
  as_session_id : uuid;
  as_mode : option text;
  as_level : option text;
  as_session_created_at : option timestamptz;
  as_user_id : uuid;
  as_username : text;
  as_native_language : text;
  as_target_language : text;
  as_proficiency_level : text
}.

(** [FROM sessions s JOIN users u ON s.user_id = u.id
     WHERE s.is_active = true].  The view has no ORDER BY: the order of
    the list is the model's, not the view's. *)
Definition active_sessions_with_users (db : database) : list active_session :=
  flat_map
    (fun s =>
       flat_map
         (fun u =>
            if N.eqb (Sessions.user_id s) (Users.id u)
               && IS_TRUE (Sessions.is_active s)
            then [mk_active_session (Sessions.id s) (Sessions.mode s)
                    (Sessions.level s) (Sessions.created_at s) (Users.id u)
                    (Users.username u) (Users.native_language u)
                    (Users.target_language u) (Users.proficiency_level u)]
            else [])
         (users db))
    (sessions db).

(** A row of [recent_messages_with_sessions]. *)
Record recent_message : Type := mk_recent_message {
  rm_message_id : uuid;
  rm_role : option text;
  rm_content : text;
  rm_corrections : option jsonb;
  rm_micro_exercise : option text;
  rm_message_created_at : option timestamptz;
  rm_session_id : uuid;
  rm_mode : option text;
  rm_level : option text;
  rm_username : text
}.

(** [ORDER BY m.created_at DESC]: later first, and NULL before any
    timestamp (NULLS FIRST is the default of DESC). *)
Definition DESC (a b : option timestamptz) : bool :=
  match a, b with
  | None, _ => true
  | Some _, None => false
  | Some x, Some y => y <=? x
  end.

Fixpoint insert_sorted {A : Type} (before : A -> A -> bool) (x : A)
    (l : list A) : list A :=
  match l with
  | [] => [x]
  | y :: l' => if before x y then x :: l else y :: insert_sorted before x l'
  end.

Definition ORDER_BY {A : Type} (before : A -> A -> bool) (l : list A) : list A :=
  fold_right (insert_sorted before) [] l.

(** [FROM messages m JOIN sessions s ON m.session_id = s.id
     JOIN users u ON s.user_id = u.id], before the ORDER BY. *)
Definition messages_with_sessions (db : database) : list recent_message :=
  flat_map
    (fun m =>
       flat_map
         (fun s =>
            if N.eqb (Messages.session_id m) (Sessions.id s) then
              flat_map
                (fun u =>
                   if N.eqb (Sessions.user_id s) (Users.id u)
                   then [mk_recent_message (Messages.id m) (Messages.role m)
                           (Messages.content m) (Messages.corrections m)
                           (Messages.micro_exercise m) (Messages.created_at m)
                           (Sessions.id s) (Sessions.mode s) (Sessions.level s)
                           (Users.username u)]
                   else [])
                (users db)
            else [])
         (sessions db))
    (messages db).

Definition recent_messages_with_sessions (db : database) : list recent_message :=
  ORDER_BY (fun a b => DESC (rm_message_created_at a) (rm_message_created_at b))
           (messages_with_sessions db).

(** The block "Insert Sample Data" of the script, one transaction: on a
    server of version 14 or later and with no user stored, it inserts the
    sample user, reads that user's id back by name and inserts the sample
    session; an error rolls the whole block back.  [user_id] and
    [session_id] are the values of [uuid_generate_v4()]. *)
Definition sample_data (server_version_num : Z) (now : timestamptz)
    (user_id session_id : uuid) (db : database) : database * option error :=
  if 140000 <=? server_version_num then
    match users db with
    | _ :: _ => (db, None)
    | [] =>
        match
          (db1 <- insert_users (Users.demo_user user_id now) db ;;
           match find (fun u => eqb (Users.username u) (lit "demo_user"))
                      (users db1) with
           | Some u =>
               insert_sessions
                 (Sessions.demo_session session_id now (Users.id u)) db1
           | None => Err not_null_violation
           end)
        with
        | Ok db' => (db', None)
        | Err e => (db, Some e)
        end
    end
  else (db, None).

(** The database the script leaves on a fresh server. *)
Definition demo : database := fst (sample_data 140000 0 1%N 2%N empty).

(** A database with one user and one session of theirs, inserted by
    hand: the values of the sample user, and
    [INSERT INTO sessions (user_id) VALUES (...)]. *)
Definition seeded (tgs : list trigger) : database :=
  execute_all tgs
    [ (0, INSERT_INTO_users (Users.demo_user 1%N 0));
      (0, INSERT_INTO_sessions (Sessions.defaults 2%N 0 1%N)) ]
    empty.

End Sql.

(* ===================================================================== *)
(** ** The chat client: [Home] of app/page.tsx and [ChatInput] *)
(* ===================================================================== *)

Module Chat.

(** A JavaScript string, as its UTF-16 code units. *)
Definition jsstring := Text.text.

(** The values a state variable or a parsed JSON document can hold. *)
#[local] Unset Elimination Schemes.
Inductive value : Type :=
| undefined
| null
| boolean (b : bool)
| number (n : Z)
| str (s : jsstring)
| array (items : list value)
| object (props : list (string * value)).
#[local] Set Elimination Schemes.

(** ToBoolean. *)
Definition truthy (v : value) : bool :=
  match v with
  | undefined | null => false
  | boolean b => b
  | number n => negb (n =? 0)
  | str s => match s with [] => false | _ :: _ => true end
  | array _ | object _ => true
  end.

Fixpoint lookup (key : string) (props : list (string * value)) : value :=
  match props with
  | [] => undefined
  | (k, v) :: props' => if String.eqb k key then v else lookup key props'
  end.

(** [v.key] for the two keys the page reads, [session_id] and [content]:
    [None] is the TypeError that reading a property of [null] or
    [undefined] throws. *)
Definition get (v : value) (key : string) : option value :=
  match v with
  | undefined | null => None
  | object props => Some (lookup key props)
  | boolean _ | number _ | str _ | array _ => Some undefined
  end.

(** WhiteSpace and LineTerminator code units, the ones
    [String.prototype.trim] removes. *)
Definition white_space (c : N) : bool :=
  Text.one_of " " c
  || Text.in_range 9 13 c        (* TAB, LF, VT, FF, CR *)
  || N.eqb c 160                 (* NBSP *)
  || N.eqb c 5760                (* U+1680 *)
  || Text.in_range 8192 8202 c   (* U+2000 .. U+200A *)
  || N.eqb c 8232 || N.eqb c 8233 (* LS, PS *)
  || N.eqb c 8239 || N.eqb c 8287 (* U+202F, U+205F *)
  || N.eqb c 12288               (* U+3000 *)
  || N.eqb c 65279.              (* U+FEFF *)

Definition trim (s : jsstring) : jsstring := Text.strip white_space s.

Inductive Sender : Type := user | bot.

(** [interface Message { text: string; sender: "user" | "bot" }]; the
    text of a bot message is whatever [data.content] was. *)
Record Message : Type := mk_message {
  text : value;
  sender : Sender
}.

(** The body handed to [JSON.stringify]: [session_id] is present when the
    spread [...(sessionId && { session_id: sessionId })] adds it. *)
Record request : Type := mk_request {
  role : jsstring;
  content : jsstring;
  session_id : option value
}.

(** A call of [handleSubmit] suspended at [await fetch(...)]: the
    [sessionId] its closure holds (the one of the render it was created
    in) and the request it sent. *)
Record call : Type := mk_call {
  closure_sessionId : value;
  sent : request
}.

(** The state of [Home] ([theme] left out: [handleSubmit] neither reads
    nor writes it), the calls in flight and every request issued so far. *)
Record page : Type := mk_page {
  messages : list Message;
  inputValue : jsstring;
  sessionId : value;
  in_flight : list call;
  requests : list request
}.

(** [useState([])], [useState("")], [useState(null)]. *)
Definition initial : page := mk_page [] [] null [] [].

(** How [await fetch(...)] and [await response.json()] turn out: the
    fetch rejects (network error), or resolves to a response with a status
    and a body; [json = None] is a body that is not JSON, for which
    [response.json()] rejects. *)
Inductive fetch_result : Type :=
| rejects
| resolves (status : Z) (json : option value).

(** [response.ok] *)
Definition ok (status : Z) : bool := (200 <=? status) && (status <=? 299).

Definition errorMessage : Message :=
  mk_message
    (str (Text.lit "Sorry, I couldn't process your request. Please try again."))
    bot.

(** [setMessages((prev) => [...prev, m])] *)
Definition setMessages_append (m : Message) (p : page) : page :=
  mk_page (messages p ++ [m]) (inputValue p) (sessionId p) (in_flight p)
          (requests p).

Definition setInputValue (v : jsstring) (p : page) : page :=
  mk_page (messages p) v (sessionId p) (in_flight p) (requests p).

Definition setSessionId (v : value) (p : page) : page :=
  mk_page (messages p) (inputValue p) v (in_flight p) (requests p).

(** [fetch(url, { method: "POST", ..., body })]: the request goes out and
    the call is suspended until it settles. *)
Definition fetch (c : call) (p : page) : page :=
  mk_page (messages p) (inputValue p) (sessionId p) (in_flight p ++ [c])
          (requests p ++ [sent c]).

(** [handleSubmit] up to its first [await]. *)
Definition handleSubmit (p : page) : page :=
  if negb (truthy (str (trim (inputValue p)))) then p
  else
    let userMessage := mk_message (str (inputValue p)) user in
    let p1 := setMessages_append userMessage p in
    let currentInput := inputValue p in
    let p2 := setInputValue [] p1 in
    let body :=
      mk_request (Text.lit "user") currentInput
                 (if truthy (sessionId p) then Some (sessionId p) else None) in
    fetch (mk_call (sessionId p) body) p2.

(** The [catch] block. *)
Definition catch (p : page) : page := setMessages_append errorMessage p.

(** [handleSubmit] from the point where its fetch settles: the rest of
    the [try] block, or the [catch] block as soon as something throws.
    [sessionId] in [!sessionId] is the closure's. *)
Definition resume (c : call) (r : fetch_result) (p : page) : page :=
  match r with
  | rejects => catch p
  | resolves status json =>
      if negb (ok status) then catch p
      else
        match json with
        | None => catch p
        | Some data =>
            match get data "session_id" with
            | None => catch p
            | Some sid =>
                let p1 :=
                  if truthy sid && negb (truthy (closure_sessionId c))
                  then setSessionId sid p
                  else p in
                match get data "content" with
                | None => catch p1
                | Some reply => setMessages_append (mk_message reply bot) p1
                end
            end
        end
  end.

(** [disabled={!inputValue.trim()}] on the send button of [ChatInput]. *)
Definition send_disabled (p : page) : bool :=
  negb (truthy (str (trim (inputValue p)))).

(** What can happen to the page: the user edits the textarea, the form
    is submitted (send button, or Enter without Shift), or the [i]-th
    fetch in flight settles. *)
Inductive event : Type :=
| onChange (v : jsstring)
| onSubmit
| settle (i : nat) (r : fetch_result).

Fixpoint remove_nth {A : Type} (i : nat) (l : list A) : list A :=
  match l, i with
  | [], _ => []
  | _ :: l', O => l'
  | x :: l', S i' => x :: remove_nth i' l'
  end.

Definition step (p : page) (e : event) : page :=
  match e with
  | onChange v => setInputValue v p
  | onSubmit => handleSubmit p
  | settle i r =>
      match nth_error (in_flight p) i with
      | None => p
      | Some c =>
          resume c r
            (mk_page (messages p) (inputValue p) (sessionId p)
                     (remove_nth i (in_flight p)) (requests p))
      end
  end.

Definition steps (es : list event) (p : page) : page := fold_left step es p.

(** The failures the [catch] block is there for: a rejected fetch, or a
    status outside 200..299. *)
Definition fetch_failed (r : fetch_result) : bool :=
  match r with
  | rejects => true
  | resolves status _ => negb (ok status)
  end.

(** A use of the page in which nothing is submitted while a fetch is in
    flight. *)
Fixpoint one_at_a_time (es : list event) (p : page) : bool :=
  match es with
  | [] => true
  | e :: es' =>
      match e, in_flight p with
      | onSubmit, _ :: _ => false
      | _, _ => one_at_a_time es' (step p e)
      end
  end.

(** The user's message of a call: the one [handleSubmit] appended before
    it sent the request. *)
Definition userMessage (c : call) : Message :=
  mk_message (str (content (sent c))) user.

(** Every call in flight has its user message in the history. *)
Definition history_keeps_pending (p : page) : Prop :=
  forall c, In c (in_flight p) -> In (userMessage c) (messages p).

(** *** ChatInput, Chat and ChatMessage *)

(** [onKeyDown] of the textarea: Enter without Shift is kept from the
    textarea and calls [handleSubmit]; every other key is left alone. *)
Definition onKeyDown (key : jsstring) (shiftKey : bool) (p : page) : page :=
  if Text.eqb key (Text.lit "Enter") && negb shiftKey
  then handleSubmit p
  else p.

(** The avatar of a message: the bot's icon, or the letter U. *)
Inductive avatar : Type := bot_icon | user_avatar_icon.

(** What [ChatMessage] renders: the class of the outer [div], the avatar
    and the content. *)
Record message_element : Type := mk_message_element {
  className : jsstring;
  message_avatar : avatar;
  message_content : value
}.

Definition sender_name (s : Sender) : jsstring :=
  match s with
  | user => Text.lit "user"
  | bot => Text.lit "bot"
  end.

Definition ChatMessage (message : Message) : message_element :=
  mk_message_element
    (Text.lit "message " ++ sender_name (sender message))
    (match sender message with
     | bot => bot_icon
     | user => user_avatar_icon
     end)
    (text message).

(** [messages.map((msg, index) => <ChatMessage key={index} ... />)] *)
Fixpoint map_with_index {A B : Type} (f : A -> nat -> B) (index : nat)
    (l : list A) : list B :=
  match l with
  | [] => []
  | x :: l' => f x index :: map_with_index f (S index) l'
  end.

(** The [chat-messages] part of [Chat]: the welcome screen, or the
    messages, each under its key. *)
Inductive chat_messages : Type :=
| Welcome
| message_list (items : list (nat * message_element)).

Definition Chat (messages : list Message) : chat_messages :=
  match messages with
  | [] => Welcome
  | _ :: _ =>
      message_list (map_with_index (fun msg index => (index, ChatMessage msg))
                                   0 messages)
  end.

(** *** The theme effect of [Home] *)

(** [classList.add] and [classList.remove] on the token list of the
    document element. *)
Definition classList_add (token : jsstring) (classList : list jsstring)
    : list jsstring :=
  if Text.is_in token classList then classList else classList ++ [token].

Definition classList_remove (token : jsstring) (classList : list jsstring)
    : list jsstring :=
  filter (fun t => negb (Text.eqb t token)) classList.

(** The [useEffect] on [theme]. *)
Definition theme_effect (theme : jsstring) (classList : list jsstring)
    : list jsstring :=
  if Text.eqb theme (Text.lit "dark")
  then classList_add (Text.lit "dark") classList
  else classList_remove (Text.lit "dark") classList.

(** The messages of one sender. *)
Definition sent_by (s : Sender) (l : list Message) : list Message :=
  filter (fun m => match sender m, s with
                   | user, user | bot, bot => true
                   | _, _ => false
                   end) l.

Definition answered (p : page) : Prop :=
  List.length (sent_by user (messages p))
    = (List.length (sent_by bot (messages p)) + List.length (in_flight p))%nat
  /\ List.length (requests p) = List.length (sent_by user (messages p)).

Definition well_formed (q : request) : Prop :=
  role q = Text.lit "user"
  /\ trim (content q) <> []
  /\ Sql.Messages.TRIM (content q) <> []
  /\ match session_id q with
     | None => True
     | Some v => truthy v = true
     end.

End Chat.

(* ===================================================================== *)
(** ** The page that posts to /chat/simple (second [Home] of page.tsx) *)
(* ===================================================================== *)

Module ChatSimple.
Import Chat.

(** [JSON.stringify({ message: currentInput })] *)
Record request : Type := mk_request { message : jsstring }.

Record page : Type := mk_page {
  messages : list Message;
  inputValue : jsstring;
  in_flight : list request;
  requests : list request
}.

Definition initial : page := mk_page [] [] [] [].

Definition setMessages_append (m : Message) (p : page) : page :=
  mk_page (messages p ++ [m]) (inputValue p) (in_flight p) (requests p).

Definition setInputValue (v : jsstring) (p : page) : page :=
  mk_page (messages p) v (in_flight p) (requests p).

Definition fetch (q : request) (p : page) : page :=
  mk_page (messages p) (inputValue p) (in_flight p ++ [q]) (requests p ++ [q]).

(** [handleSubmit] up to its [await]. *)
Definition handleSubmit (p : page) : page :=
  if negb (truthy (str (trim (inputValue p)))) then p
  else
    let userMessage := mk_message (str (inputValue p)) user in
    let p1 := setMessages_append userMessage p in
    let currentInput := inputValue p in
    let p2 := setInputValue [] p1 in
    fetch (mk_request currentInput) p2.

Definition catch (p : page) : page := setMessages_append errorMessage p.

(** [handleSubmit] from the point where its fetch settles. *)
Definition resume (r : fetch_result) (p : page) : page :=
  match r with
  | rejects => catch p
  | resolves status json =>
      if negb (ok status) then catch p
      else
        match json with
        | None => catch p
        | Some data =>
            match get data "response" with
            | None => catch p
            | Some reply => setMessages_append (mk_message reply bot) p
            end
        end
  end.

Definition step (p : page) (e : event) : page :=
  match e with
  | onChange v => setInputValue v p
  | onSubmit => handleSubmit p
  | settle i r =>
      match nth_error (in_flight p) i with
      | None => p
      | Some _ =>
          resume r (mk_page (messages p) (inputValue p)
                            (remove_nth i (in_flight p)) (requests p))
      end
  end.

Definition steps (es : list event) (p : page) : page := fold_left step es p.

(** The reply of /chat/simple, [{ response }], as the reply
    [{ content }] of /chat/memory. *)
Definition as_memory_reply (r : fetch_result) : fetch_result :=
  match r with
  | resolves status (Some data) =>
      match get data "response" with
      | Some reply =>
          resolves status (Some (object [("content"%string, reply)]))
      | None => r
      end
  | _ => r
  end.

Definition as_memory_event (e : event) : event :=
  match e with
  | settle i r => settle i (as_memory_reply r)
  | _ => e
  end.

(** The /chat/memory page [p1] stands for the /chat/simple page [p]. *)
Definition matches_memory (p : page) (p1 : Chat.page) : Prop :=
  Chat.messages p1 = messages p
  /\ Chat.inputValue p1 = inputValue p
  /\ Chat.sessionId p1 = null
  /\ List.length (Chat.in_flight p1) = List.length (in_flight p)
  /\ map Chat.content (Chat.requests p1) = map message (requests p).

End ChatSimple.

(* ===================================================================== *)
(** ** The page with the simulated reply (third [Home] of page.tsx) *)
(* ===================================================================== *)

Module ChatCanned.
Import Chat.

(** The state of the page and the number of timers that have not fired
    yet; their callbacks are all the same. *)
Record page : Type := mk_page {
  messages : list Message;
  inputValue : jsstring;
  timers : nat
}.

Definition initial : page := mk_page [] [] 0.

Definition botMessage : Message :=
  mk_message
    (str (Text.lit "That's a great goal! What would you like to write about?"))
    bot.

(** [handleSubmit]: the user message, the cleared input, and
    [setTimeout(..., 1000)]. *)
Definition handleSubmit (p : page) : page :=
  if negb (truthy (str (trim (inputValue p)))) then p
  else
    let userMessage := mk_message (str (inputValue p)) user in
    mk_page (messages p ++ [userMessage]) [] (S (timers p)).

Inductive event : Type :=
| onChange (v : jsstring)
| onSubmit
| timeout.

Definition step (p : page) (e : event) : page :=
  match e with
  | onChange v => mk_page (messages p) v (timers p)
  | onSubmit => handleSubmit p
  | timeout =>
      match timers p with
      | O => p
      | S n => mk_page (messages p ++ [botMessage]) (inputValue p) n
      end
  end.

Definition steps (es : list event) (p : page) : page := fold_left step es p.

(** Every bot message is the simulated reply, and the user messages are
    as many as the bot messages and the timers left. *)
Definition replies_simulated (p : page) : Prop :=
  (forall m, In m (messages p) -> sender m = bot -> m = botMessage)
  /\ List.length (sent_by user (messages p))
     = (List.length (sent_by bot (messages p)) + timers p)%nat.

End ChatCanned.

(* ===================================================================== *)
(** ** Facts about text *)
(* ===================================================================== *)

Module TextFacts.
Import Text.

Lemma eqb_eq (a b : text) : eqb a b = true <-> a = b.
Proof.
  revert b; induction a as [|x a IH]; intros [|y b]; simpl; split;
    try congruence; try reflexivity.
  - intros H. apply andb_true_iff in H as [Hx Hab].
    apply N.eqb_eq in Hx. apply IH in Hab. congruence.
  - intros H. injection H as -> ->.
    rewrite N.eqb_refl. simpl. apply IH. reflexivity.
Qed.

Lemma eqb_refl (a : text) : eqb a a = true.
Proof. apply eqb_eq. reflexivity. Qed.

Lemma drop_while_nil (p : N -> bool) (s : text) :
  drop_while p s = [] <-> forallb p s = true.
Proof.
  induction s as [|c s IH]; simpl.
  - tauto.
  - destruct (p c); simpl.
    + exact IH.
    + split; discriminate.
Qed.

Lemma forallb_rev (p : N -> bool) (s : text) :
  forallb p (rev s) = forallb p s.
Proof.
  induction s as [|c s IH]; simpl.
  - reflexivity.
  - rewrite forallb_app, IH. simpl. rewrite andb_true_r. apply andb_comm.
Qed.

(** What [drop_while] leaves is a suffix, so it holds a character outside
    [p] as soon as the text does. *)
Lemma forallb_drop_while (p : N -> bool) (s : text) :
  forallb p (drop_while p s) = forallb p s.
Proof.
  induction s as [|c s IH]; simpl.
  - reflexivity.
  - destruct (p c) eqn:E; simpl.
    + exact IH.
    + rewrite E. reflexivity.
Qed.

Lemma strip_nil (p : N -> bool) (s : text) :
  strip p s = [] <-> forallb p s = true.
Proof.
  unfold strip. split.
  - intros H.
    assert (Hd : drop_while p (rev (drop_while p s)) = []).
    { rewrite <- (rev_involutive (drop_while p (rev (drop_while p s)))).
      rewrite H. reflexivity. }
    apply drop_while_nil in Hd.
    rewrite forallb_rev, forallb_drop_while in Hd. exact Hd.
  - intros H. apply drop_while_nil in H. rewrite H. reflexivity.
Qed.

End TextFacts.

(* ===================================================================== *)
(** ** Facts about the chat client *)
(* ===================================================================== *)

Module ChatFacts.
Import Chat.

Lemma trim_blank (s : jsstring) : forallb white_space s = true -> trim s = [].
Proof. intros H. apply TextFacts.strip_nil. exact H. Qed.

Lemma send_disabled_blank (p : page) :
  forallb white_space (inputValue p) = true -> send_disabled p = true.
Proof. intros H. unfold send_disabled. rewrite (trim_blank _ H). reflexivity. Qed.

Lemma handleSubmit_blank (p : page) :
  send_disabled p = true -> handleSubmit p = p.
Proof.
  unfold send_disabled, handleSubmit. intros H. rewrite H. reflexivity.
Qed.

Lemma handleSubmit_sends (p : page) :
  send_disabled p = false ->
  handleSubmit p =
    mk_page (messages p ++ [mk_message (str (inputValue p)) user]) []
            (sessionId p)
            (in_flight p ++
               [mk_call (sessionId p)
                  (mk_request (Text.lit "user") (inputValue p)
                     (if truthy (sessionId p) then Some (sessionId p) else None))])
            (requests p ++
               [mk_request (Text.lit "user") (inputValue p)
                  (if truthy (sessionId p) then Some (sessionId p) else None)]).
Proof.
  unfold send_disabled, handleSubmit. intros H. rewrite H. reflexivity.
Qed.

(** Whatever the outcome, a resumed call appends exactly one message and
    touches neither the input, the calls in flight nor the requests. *)
Lemma resume_appends (c : call) (r : fetch_result) (p : page) :
  exists m,
    messages (resume c r p) = messages p ++ [m]
    /\ sender m = bot
    /\ inputValue (resume c r p) = inputValue p
    /\ in_flight (resume c r p) = in_flight p
    /\ requests (resume c r p) = requests p.
Proof.
  unfold resume.
  destruct r as [|status json].
  - exists errorMessage. repeat split.
  - destruct (negb (ok status)).
    + exists errorMessage. repeat split.
    + destruct json as [data|].
      * destruct (get data "session_id") as [sid|].
        -- destruct (get data "content") as [reply|];
             destruct (truthy sid && negb (truthy (closure_sessionId c)));
             eexists; repeat split.
        -- exists errorMessage. repeat split.
      * exists errorMessage. repeat split.
Qed.

Lemma resume_failed (c : call) (r : fetch_result) (p : page) :
  fetch_failed r = true -> resume c r p = catch p.
Proof.
  destruct r as [|status json]; simpl.
  - reflexivity.
  - intros H. rewrite H. reflexivity.
Qed.

Lemma In_remove_nth {A : Type} (x : A) (i : nat) (l : list A) :
  In x (remove_nth i l) -> In x l.
Proof.
  revert i; induction l as [|y l IH]; intros [|i]; simpl; auto.
  intros [H|H]; [left; exact H | right; exact (IH _ H)].
Qed.

Lemma length_remove_nth {A : Type} (i : nat) (l : list A) :
  (List.length (remove_nth i l) <= List.length l)%nat.
Proof.
  revert i; induction l as [|y l IH]; intros [|i]; simpl; auto.
  specialize (IH i). lia.
Qed.

Lemma remove_nth_lt {A : Type} (i : nat) (l : list A) (x : A) :
  nth_error l i = Some x ->
  S (List.length (remove_nth i l)) = List.length l.
Proof.
  revert i; induction l as [|y l IH]; intros [|i]; simpl; try discriminate.
  - reflexivity.
  - intros H. rewrite (IH _ H). reflexivity.
Qed.

Lemma history_keeps_pending_step (p : page) (e : event) :
  history_keeps_pending p -> history_keeps_pending (step p e).
Proof.
  intros Inv. destruct e as [v| |i r]; simpl.
  - exact Inv.
  - destruct (send_disabled p) eqn:E.
    + rewrite handleSubmit_blank by exact E. exact Inv.
    + rewrite handleSubmit_sends by exact E.
      intros c Hc. simpl in *.
      apply in_app_iff in Hc. apply in_app_iff.
      destruct Hc as [Hc|[<-|[]]].
      * left. apply Inv. exact Hc.
      * right. left. reflexivity.
  - destruct (nth_error (in_flight p) i) as [c|] eqn:E; [|exact Inv].
    set (q := mk_page _ _ _ _ _).
    destruct (resume_appends c r q) as (m & Hm & _ & _ & Hf & _).
    intros c' Hc'. rewrite Hf in Hc'. rewrite Hm.
    apply in_app_iff. left. apply Inv.
    apply (In_remove_nth _ i). exact Hc'.
Qed.

Lemma history_keeps_pending_steps (es : list event) (p : page) :
  history_keeps_pending p -> history_keeps_pending (steps es p).
Proof.
  revert p; induction es as [|e es IH]; intros p Inv; simpl.
  - exact Inv.
  - apply IH. apply history_keeps_pending_step. exact Inv.
Qed.

(** C7. A submit while the input is empty or holds nothing but white
    space leaves the page exactly as it was: no request is issued (the
    requests and the calls in flight are the same), no message is
    appended, and the session id is what it was. *)
Theorem blank_submit_changes_nothing (p : page) :
  forallb white_space (inputValue p) = true ->
  step p onSubmit = p.
Proof.
  intros H. simpl. apply handleSubmit_blank, send_disabled_blank, H.
Qed.

Lemma blank_submit_changes_nothing_witness :
  let p := mk_page [mk_message (str (Text.lit "hello")) user] [32; 9; 10; 160]%N
                   (str (Text.lit "s1")) [] [] in
  forallb white_space (inputValue p) = true /\ step p onSubmit = p.
Proof.
  split.
  - reflexivity.
  - apply blank_submit_changes_nothing. reflexivity.
Defined.

(** C3. When the fetch of a submit fails (it rejects, or resolves with a
    status outside 200..299), the call appends exactly one message, the
    bot message with the fixed fallback text, at the end of the list;
    everything before it is untouched, the user message of that submit
    included. *)
Theorem failed_fetch_appends_one_fallback
    (es : list event) (i : nat) (c : call) (r : fetch_result) :
  nth_error (in_flight (steps es initial)) i = Some c ->
  fetch_failed r = true ->
  messages (step (steps es initial) (settle i r))
    = messages (steps es initial) ++ [errorMessage]
  /\ In (mk_message (str (content (sent c))) user) (messages (steps es initial))
  /\ errorMessage
     = mk_message
         (str (Text.lit "Sorry, I couldn't process your request. Please try again."))
         bot.
Proof.
  intros Hc Hr. split; [|split].
  - simpl. rewrite Hc. rewrite resume_failed by exact Hr. reflexivity.
  - assert (Inv : history_keeps_pending (steps es initial)).
    { apply history_keeps_pending_steps. intros c' []. }
    apply (Inv c). eapply nth_error_In. exact Hc.
  - reflexivity.
Qed.

Lemma failed_fetch_appends_one_fallback_witness :
  let es := [onChange (Text.lit "hi"); onSubmit] in
  let c := mk_call null (mk_request (Text.lit "user") (Text.lit "hi") None) in
  nth_error (in_flight (steps es initial)) 0 = Some c
  /\ fetch_failed (resolves 500 None) = true
  /\ messages (step (steps es initial) (settle 0 (resolves 500 None)))
     = [mk_message (str (Text.lit "hi")) user; errorMessage].
Proof.
  split; [reflexivity|]. split; [reflexivity|].
  apply (failed_fetch_appends_one_fallback
           [onChange (Text.lit "hi"); onSubmit] 0
           (mk_call null (mk_request (Text.lit "user") (Text.lit "hi") None))
           (resolves 500 None)); reflexivity.
Defined.

Lemma step_settle_in_flight (p : page) (i : nat) (r : fetch_result) :
  (List.length (in_flight (step p (settle i r))) <= List.length (in_flight p))%nat.
Proof.
  simpl. destruct (nth_error (in_flight p) i) as [c|]; [|lia].
  set (q := mk_page _ _ _ _ _).
  destruct (resume_appends c r q) as (m & _ & _ & _ & Hf & _).
  rewrite Hf. simpl. apply length_remove_nth.
Qed.

Lemma step_settle_requests (p : page) (i : nat) (r : fetch_result) :
  requests (step p (settle i r)) = requests p.
Proof.
  simpl. destruct (nth_error (in_flight p) i) as [c|]; [|reflexivity].
  set (q := mk_page _ _ _ _ _).
  destruct (resume_appends c r q) as (m & _ & _ & _ & _ & Hq).
  rewrite Hq. reflexivity.
Qed.

Lemma one_at_a_time_settle (es : list event) (p : page) i r :
  one_at_a_time (settle i r :: es) p = one_at_a_time es (step p (settle i r)).
Proof. cbn [one_at_a_time]. destruct (in_flight p); reflexivity. Qed.

Lemma one_at_a_time_in_flight (es : list event) (p : page) :
  one_at_a_time es p = true ->
  (List.length (in_flight p) <= 1)%nat ->
  (List.length (in_flight (steps es p)) <= 1)%nat.
Proof.
  revert p; induction es as [|e es IH]; intros p Hes Hp.
  - exact Hp.
  - change (steps (e :: es) p) with (steps es (step p e)).
    destruct e as [v| |i r].
    + apply IH; [exact Hes | exact Hp].
    + simpl in Hes. destruct (in_flight p) as [|c l] eqn:E; [|discriminate].
      apply IH; [exact Hes|].
      simpl. destruct (send_disabled p) eqn:D.
      * rewrite handleSubmit_blank by exact D. rewrite E. simpl. lia.
      * rewrite handleSubmit_sends by exact D. simpl. rewrite E. simpl. lia.
    + rewrite one_at_a_time_settle in Hes.
      apply IH; [exact Hes|].
      pose proof (step_settle_in_flight p i r). lia.
Qed.

(** C9, as the code has it.  A submit of non-blank input issues exactly
    one request, carrying that input, and adds one call in flight; a blank
    submit, an edit of the input and the settling of a fetch issue none.
    Whether a submit goes through depends on the input alone, not on what
    is in flight; at most one request is in flight at a time in the uses
    of the page that submit nothing while one is. *)
Theorem one_request_per_submit (p : page) :
  (send_disabled p = false ->
     exists q,
       requests (step p onSubmit) = requests p ++ [q]
       /\ content q = inputValue p
       /\ List.length (in_flight (step p onSubmit))
          = S (List.length (in_flight p)))
  /\ (send_disabled p = true -> step p onSubmit = p)
  /\ (forall v, requests (step p (onChange v)) = requests p)
  /\ (forall i r, requests (step p (settle i r)) = requests p)
  /\ (forall es,
        one_at_a_time es p = true ->
        (List.length (in_flight p) <= 1)%nat ->
        (List.length (in_flight (steps es p)) <= 1)%nat).
Proof.
  split; [|split; [|split; [|split]]].
  - intros D. simpl. rewrite handleSubmit_sends by exact D. simpl.
    eexists. split; [reflexivity|]. split; [reflexivity|].
    rewrite length_app. simpl. lia.
  - intros D. simpl. apply handleSubmit_blank. exact D.
  - intros v. reflexivity.
  - intros i r. apply step_settle_requests.
  - intros es. apply one_at_a_time_in_flight.
Qed.

Lemma one_request_per_submit_witness :
  let p := setInputValue (Text.lit "b")
             (steps [onChange (Text.lit "a"); onSubmit] initial) in
  send_disabled p = false
  /\ List.length (in_flight p) = 1%nat
  /\ exists q,
       requests (step p onSubmit) = requests p ++ [q]
       /\ content q = inputValue p
       /\ List.length (in_flight (step p onSubmit))
          = S (List.length (in_flight p)).
Proof.
  split; [reflexivity|]. split; [reflexivity|].
  apply (one_request_per_submit
           (setInputValue (Text.lit "b")
              (steps [onChange (Text.lit "a"); onSubmit] initial))).
  reflexivity.
Defined.

(** C9, as stated, fails: nothing holds a second submit back while the
    first request is awaited, and two requests are then in flight. *)
Lemma two_requests_in_flight :
  ~ (forall es : list event,
       (List.length (in_flight (steps es initial)) <= 1)%nat).
Proof.
  intros H.
  specialize (H [onChange (Text.lit "a"); onSubmit;
                 onChange (Text.lit "b"); onSubmit]).
  vm_compute in H. lia.
Qed.

(** *** The session id *)

(** The session id is [null] or truthy, never another falsy value. *)
Lemma sessionId_null_or_truthy (es : list event) :
  sessionId (steps es initial) = null
  \/ truthy (sessionId (steps es initial)) = true.
Proof.
  assert (G : forall p, (sessionId p = null \/ truthy (sessionId p) = true) ->
              sessionId (steps es p) = null
              \/ truthy (sessionId (steps es p)) = true).
  { induction es as [|e es IH]; intros p Hp; [exact Hp|].
    change (steps (e :: es) p) with (steps es (step p e)).
    apply IH. destruct e as [v| |i r]; simpl.
    - exact Hp.
    - unfold handleSubmit.
      destruct (negb (truthy (str (trim (inputValue p))))); exact Hp.
    - destruct (nth_error (in_flight p) i) as [c|]; [|exact Hp].
      unfold resume. destruct r as [|status json]; [exact Hp|].
      destruct (negb (ok status)); [exact Hp|].
      destruct json as [data|]; [|exact Hp].
      destruct (get data "session_id") as [sid|]; [|exact Hp].
      destruct (truthy sid) eqn:T; simpl;
        destruct (negb (truthy (closure_sessionId c))); simpl;
        destruct (get data "content"); simpl; auto. }
  apply G. left. reflexivity.
Qed.

(** A request carries the session id of the page exactly when there is
    one. *)
Lemma request_carries_session_id (p : page) :
  send_disabled p = false ->
  exists q,
    requests (step p onSubmit) = requests p ++ [q]
    /\ session_id q = if truthy (sessionId p) then Some (sessionId p) else None.
Proof.
  intros D. simpl. rewrite handleSubmit_sends by exact D. simpl.
  eexists. split; reflexivity.
Qed.

(** Where submits do not overlap, a session id once set stays: the guard
    [!sessionId] then reads the value the page has. *)
Lemma sessionId_kept_one_at_a_time (es : list event) (p : page) :
  one_at_a_time es p = true ->
  in_flight p = [] ->
  truthy (sessionId p) = true ->
  sessionId (steps es p) = sessionId p.
Proof.
  assert (G : forall es p,
             one_at_a_time es p = true ->
             (List.length (in_flight p) <= 1)%nat ->
             (forall c, In c (in_flight p) -> closure_sessionId c = sessionId p) ->
             truthy (sessionId p) = true ->
             sessionId (steps es p) = sessionId p).
  { clear es p. induction es as [|e es IH]; intros p Hes Hlen Hcl Ht.
    - reflexivity.
    - change (steps (e :: es) p) with (steps es (step p e)).
      destruct e as [v| |i r].
      + apply (IH (step p (onChange v))); assumption.
      + cbn [one_at_a_time] in Hes.
        destruct (in_flight p) as [|c0 l] eqn:E; [|discriminate].
        cbn [step] in *. destruct (send_disabled p) eqn:D.
        * rewrite handleSubmit_blank in * by exact D.
          apply IH; try assumption.
          -- rewrite E. exact Hlen.
          -- rewrite E. exact Hcl.
        * rewrite handleSubmit_sends in * by exact D.
          rewrite IH; cbn [sessionId in_flight]; try assumption.
          -- reflexivity.
          -- rewrite E. simpl. lia.
          -- rewrite E. simpl. intros c [<-|[]]. reflexivity.
      + rewrite one_at_a_time_settle in Hes.
        assert (Hs : sessionId (step p (settle i r)) = sessionId p).
        { simpl. destruct (nth_error (in_flight p) i) as [c|] eqn:E;
            [|reflexivity].
          assert (Hc : closure_sessionId c = sessionId p).
          { apply Hcl. eapply nth_error_In. exact E. }
          unfold resume. destruct r as [|status json]; [reflexivity|].
          destruct (negb (ok status)); [reflexivity|].
          destruct json as [data|]; [|reflexivity].
          destruct (get data "session_id") as [sid|]; [|reflexivity].
          rewrite Hc, Ht, andb_false_r.
          destruct (get data "content"); reflexivity. }
        rewrite <- Hs. apply IH.
        * exact Hes.
        * pose proof (step_settle_in_flight p i r). lia.
        * intros c' Hc'. rewrite Hs.
          apply Hcl. revert Hc'. simpl.
          destruct (nth_error (in_flight p) i) as [c|] eqn:E; [|tauto].
          set (q := mk_page _ _ _ _ _).
          destruct (resume_appends c r q) as (m & _ & _ & _ & Hf & _).
          rewrite Hf. simpl. apply In_remove_nth.
        * rewrite Hs. exact Ht. }
  intros Hes Hnil Ht. apply G; try assumption.
  - rewrite Hnil. simpl. lia.
  - rewrite Hnil. intros c [].
Qed.

(** C10 on two submits that overlap.  Both requests go out while the
    session id is [null], so both closures hold [null]; the first reply
    sets the session id to ["s1"], and the second reply, whose guard
    [!sessionId] still reads [null], replaces it by ["s2"]. *)
Theorem sessionId_overwritten_when_submits_overlap :
  let reply (c s : string) :=
    resolves 200
      (Some (object [("content"%string, str (Text.lit c));
                     ("session_id"%string, str (Text.lit s))])) in
  let es := [onChange (Text.lit "a"); onSubmit;
             onChange (Text.lit "b"); onSubmit] in
  map session_id (requests (steps es initial)) = [None; None]
  /\ sessionId (steps (es ++ [settle 0 (reply "x" "s1")%string]) initial)
     = str (Text.lit "s1")
  /\ sessionId (steps (es ++ [settle 0 (reply "x" "s1")%string;
                              settle 0 (reply "y" "s2")%string]) initial)
     = str (Text.lit "s2").
Proof. repeat split. Qed.

End ChatFacts.

(* ===================================================================== *)
(** ** Facts about the schema *)
(* ===================================================================== *)

Module SqlFacts.
Import Text Sql.

Lemma bind_Ok {A B : Type} (r : result A) (k : A -> result B) (b : B) :
  bind r k = Ok b -> exists a, r = Ok a /\ k a = Ok b.
Proof. destruct r as [a|e]; simpl; [eauto | discriminate]. Qed.

Lemma require_Ok (c : bool) (e : error) (u : unit) :
  require c e = Ok u -> c = true.
Proof. destruct c; simpl; [reflexivity | discriminate]. Qed.

(** Peel the successful prefix of a statement off hypothesis [H]. *)
Ltac ok_steps H :=
  repeat
    (let a := fresh "a" in
     let Ha := fresh "Hstep" in
     apply bind_Ok in H as (a & Ha & H);
     try (apply require_Ok in Ha));
  repeat match goal with u : unit |- _ => destruct u end.

Lemma first_violation_Ok (cs : list (string * bool)) (u : unit) :
  first_violation cs = Ok u -> forall name holds, In (name, holds) cs -> holds = true.
Proof.
  induction cs as [|[n h] cs IH]; simpl; intros H name holds Hin.
  - destruct Hin.
  - destruct h; [|discriminate].
    destruct Hin as [Heq|Hin]; [congruence | eauto].
Qed.




Section AnyCatalog.

Variable tgs : list trigger.

(** The statements [update_session_message_count] issues touch the
    [sessions] table only. *)
Lemma update_sessions_frame now k set db db' :
  update_sessions tgs now k set db = Ok db' ->
  users db' = users db /\ messages db' = messages db.
Proof.
  unfold update_sessions.
  destruct (find (session_is k) (sessions db)) as [OLD|].
  - intros H. ok_steps H. injection H as <-. split; reflexivity.
  - intros H. injection H as <-. split; reflexivity.
Qed.

Lemma after_messages_frame now op r db db' :
  after_messages tgs now op r db = Ok db' ->
  users db' = users db /\ messages db' = messages db.
Proof.
  unfold after_messages, update_session_message_count.
  destruct (fires tgs AFTER op messages_table fn_update_session_message_count).
  - destruct op; intros H.
    + apply update_sessions_frame in H. exact H.
    + injection H as <-. split; reflexivity.
    + apply update_sessions_frame in H. exact H.
  - intros H. injection H as <-. split; reflexivity.
Qed.

Lemma after_each_frame now op rows db db' :
  after_each tgs now op rows db = Ok db' ->
  users db' = users db /\ messages db' = messages db.
Proof.
  revert db; induction rows as [|r rows IH]; simpl; intros db H.
  - injection H as <-. split; reflexivity.
  - apply bind_Ok in H as (db1 & H1 & H).
    apply after_messages_frame in H1 as [Hu Hm].
    apply IH in H as [Hu' Hm']. split; congruence.
Qed.



End AnyCatalog.





(** *** The content check *)












(** *** Cascading deletes *)

Lemma In_replace {R : Type} (is_row : R -> bool) (NEW OLD : R) (rows : list R) :
  In OLD rows -> is_row OLD = true -> In NEW (replace is_row NEW rows).
Proof.
  intros Hin His. unfold replace. apply in_map_iff.
  exists OLD. rewrite His. split; [reflexivity | exact Hin].
Qed.

Lemma In_replace_inv {R : Type} (is_row : R -> bool) (NEW r : R) (rows : list R) :
  In r (replace is_row NEW rows) -> r = NEW \/ In r rows.
Proof.
  unfold replace. intros H. apply in_map_iff in H as (x & Hx & Hin).
  destruct (is_row x); [left; congruence | right; congruence].
Qed.

Lemma In_others {R : Type} (is_row : R -> bool) (r : R) (rows : list R) :
  In r (others is_row rows) <-> In r rows /\ is_row r = false.
Proof.
  unfold others. rewrite filter_In. rewrite negb_true_iff. tauto.
Qed.

Lemma keys_from_refl (l : list Sessions.row) : keys_from l l.
Proof. intros s Hs. exists s. auto. Qed.

Lemma keys_from_trans (l1 l2 l3 : list Sessions.row) :
  keys_from l1 l2 -> keys_from l2 l3 -> keys_from l1 l3.
Proof.
  intros H12 H23 s3 H3.
  destruct (H23 _ H3) as (s2 & H2 & Hi & Hu).
  destruct (H12 _ H2) as (s1 & H1 & Hi' & Hu').
  exists s1. repeat split; congruence.
Qed.

Lemma before_update_sessions_keys tgs now (r : Sessions.row) :
  Sessions.id (before_update tgs now sessions_table r) = Sessions.id r
  /\ Sessions.user_id (before_update tgs now sessions_table r)
     = Sessions.user_id r.
Proof.
  unfold before_update.
  destruct (fires tgs BEFORE UPDATE sessions_table fn_update_updated_at_column);
    split; reflexivity.
Qed.

Lemma update_sessions_keys tgs now k set db db' :
  (forall s s', set s = Ok s' ->
     Sessions.id s' = Sessions.id s /\ Sessions.user_id s' = Sessions.user_id s) ->
  update_sessions tgs now k set db = Ok db' ->
  keys_from (sessions db) (sessions db').
Proof.
  intros Hset. unfold update_sessions.
  destruct (find (session_is k) (sessions db)) as [OLD|] eqn:E.
  - intros H. apply bind_Ok in H as (assigned & Ha & H).
    ok_steps H. injection H as <-. simpl.
    intros s' Hs'. apply In_replace_inv in Hs' as [->|Hs'].
    + exists OLD. apply find_some in E as [Hin _].
      destruct (before_update_sessions_keys tgs now assigned) as [Hi Hu].
      destruct (Hset _ _ Ha) as [Hi' Hu'].
      repeat split; congruence.
    + exists s'. auto.
  - intros H. injection H as <-. apply keys_from_refl.
Qed.

Lemma int4_Ok (z n : Z) : int4 z = Ok n -> n = z.
Proof. unfold int4. destruct (_ && _); congruence. Qed.

Lemma after_messages_keys tgs now op r db db' :
  after_messages tgs now op r db = Ok db' ->
  keys_from (sessions db) (sessions db').
Proof.
  unfold after_messages, update_session_message_count.
  destruct (fires tgs AFTER op messages_table fn_update_session_message_count).
  - destruct op; intros H.
    + eapply update_sessions_keys; [|exact H].
      intros s s' Hs. apply bind_Ok in Hs as (n & _ & Hs).
      injection Hs as <-. split; reflexivity.
    + injection H as <-. apply keys_from_refl.
    + eapply update_sessions_keys; [|exact H].
      intros s s' Hs. apply bind_Ok in Hs as (n & _ & Hs).
      injection Hs as <-. split; reflexivity.
  - intros H. injection H as <-. apply keys_from_refl.
Qed.

Lemma after_each_keys tgs now op rows db db' :
  after_each tgs now op rows db = Ok db' ->
  keys_from (sessions db) (sessions db').
Proof.
  revert db; induction rows as [|r rows IH]; simpl; intros db H.
  - injection H as <-. apply keys_from_refl.
  - apply bind_Ok in H as (db1 & H1 & H).
    eapply keys_from_trans; [eapply after_messages_keys; exact H1|].
    apply IH. exact H.
Qed.

(** The cascade, whatever triggers the catalog holds. *)
Lemma delete_users_cascades tgs now k db db' :
  existsb (user_is k) (users db) = true ->
  run tgs now (DELETE_FROM_users k) db = Ok db' ->
  (forall u, In u (users db') -> Users.id u <> k)
  /\ (forall s, In s (sessions db') -> Sessions.user_id s <> k)
  /\ (forall m s, In m (messages db') -> In s (sessions db) ->
        Sessions.user_id s = k -> Messages.session_id m <> Sessions.id s).
Proof.
  intros Hk H. simpl in H. unfold delete_users in H. rewrite Hk in H.
  pose proof (after_each_frame _ _ _ _ _ _ H) as [Hu Hm].
  pose proof (after_each_keys _ _ _ _ _ _ H) as Hs.
  simpl in Hu, Hm, Hs. split; [|split].
  - intros u Hin. rewrite Hu in Hin. apply In_others in Hin as [_ Hin].
    unfold user_is in Hin. apply N.eqb_neq in Hin. exact Hin.
  - intros s Hin. destruct (Hs _ Hin) as (s0 & Hin0 & _ & Huid).
    apply In_others in Hin0 as [_ Hin0].
    unfold session_of in Hin0. apply N.eqb_neq in Hin0. congruence.
  - intros m s Hin Hsin Hsk. rewrite Hm in Hin.
    apply In_others in Hin as [_ Hin].
    intros Heq.
    assert (Hex : existsb (fun s0 => message_of (Sessions.id s0) m)
                          (filter (session_of k) (sessions db)) = true).
    { apply existsb_exists. exists s. split.
      - apply filter_In. split; [exact Hsin|].
        unfold session_of. apply N.eqb_eq. exact Hsk.
      - unfold message_of. apply N.eqb_eq. exact Heq. }
    congruence.
Qed.

Lemma delete_sessions_cascades tgs now k db db' :
  existsb (session_is k) (sessions db) = true ->
  run tgs now (DELETE_FROM_sessions k) db = Ok db' ->
  (forall s, In s (sessions db') -> Sessions.id s <> k)
  /\ (forall m, In m (messages db') -> Messages.session_id m <> k).
Proof.
  intros Hk H. simpl in H. unfold delete_sessions in H. rewrite Hk in H.
  pose proof (after_each_frame _ _ _ _ _ _ H) as [Hu Hm].
  pose proof (after_each_keys _ _ _ _ _ _ H) as Hs.
  simpl in Hu, Hm, Hs. split.
  - intros s Hin. destruct (Hs _ Hin) as (s0 & Hin0 & Hid & _).
    apply In_others in Hin0 as [_ Hin0].
    unfold session_is in Hin0. apply N.eqb_neq in Hin0. congruence.
  - intros m Hin. rewrite Hm in Hin. apply In_others in Hin as [_ Hin].
    unfold message_of in Hin. apply N.eqb_neq in Hin. exact Hin.
Qed.

(** *** The catalog the script leaves *)

Lemma installed_triggers :
  triggers installed = [update_users_updated_at; update_sessions_updated_at].
Proof. reflexivity. Qed.

Lemma installed_functions :
  functions installed = [fn_update_updated_at_column].
Proof. reflexivity. Qed.

Lemma no_message_trigger_installed (op : tg_op) :
  fires (triggers installed) AFTER op messages_table
        fn_update_session_message_count = false.
Proof. destruct op; reflexivity. Qed.

Lemma after_messages_installed now op r db :
  after_messages (triggers installed) now op r db = Ok db.
Proof.
  unfold after_messages. rewrite no_message_trigger_installed. reflexivity.
Qed.

Lemma after_each_installed now op rows db :
  after_each (triggers installed) now op rows db = Ok db.
Proof.
  induction rows as [|r rows IH]; cbn [after_each].
  - reflexivity.
  - rewrite after_messages_installed. cbn [bind]. exact IH.
Qed.

(** C4. Deleting a user that exists succeeds and leaves no row of
    [users] with that id, no session of that user, and no message of any
    session that user had; deleting a session that exists succeeds and
    leaves no row of [sessions] with that id and no message of it. *)
Theorem delete_cascades (now : timestamptz) (k : uuid) (db : database) :
  (existsb (user_is k) (users db) = true ->
     exists db',
       execute (triggers installed) now (DELETE_FROM_users k) db = (db', None)
       /\ (forall u, In u (users db') -> Users.id u <> k)
       /\ (forall s, In s (sessions db') -> Sessions.user_id s <> k)
       /\ (forall m s, In m (messages db') -> In s (sessions db) ->
             Sessions.user_id s = k -> Messages.session_id m <> Sessions.id s))
  /\ (existsb (session_is k) (sessions db) = true ->
        exists db',
          execute (triggers installed) now (DELETE_FROM_sessions k) db
            = (db', None)
          /\ (forall s, In s (sessions db') -> Sessions.id s <> k)
          /\ (forall m, In m (messages db') -> Messages.session_id m <> k)).
Proof.
  split; intros Hk.
  - assert (Hrun : exists db',
               run (triggers installed) now (DELETE_FROM_users k) db = Ok db').
    { simpl. unfold delete_users. rewrite Hk.
      rewrite after_each_installed. eauto. }
    destruct Hrun as [db' Hrun]. exists db'. split.
    + unfold execute. rewrite Hrun. reflexivity.
    + eapply delete_users_cascades; eassumption.
  - assert (Hrun : exists db',
               run (triggers installed) now (DELETE_FROM_sessions k) db = Ok db').
    { simpl. unfold delete_sessions. rewrite Hk.
      rewrite after_each_installed. eauto. }
    destruct Hrun as [db' Hrun]. exists db'. split.
    + unfold execute. rewrite Hrun. reflexivity.
    + eapply delete_sessions_cascades; eassumption.
Qed.

Lemma delete_cascades_witness :
  let db := execute_all (triggers installed)
              [(1, INSERT_INTO_messages (Messages.defaults 3%N 1 2%N (lit "hello")))]
              (seeded (triggers installed)) in
  existsb (user_is 1%N) (users db) = true
  /\ exists db',
       execute (triggers installed) 9 (DELETE_FROM_users 1%N) db = (db', None)
       /\ (forall u, In u (users db') -> Users.id u <> 1%N)
       /\ (forall s, In s (sessions db') -> Sessions.user_id s <> 1%N)
       /\ (forall m s, In m (messages db') -> In s (sessions db) ->
             Sessions.user_id s = 1%N -> Messages.session_id m <> Sessions.id s).
Proof.
  split.
  - reflexivity.
  - apply (proj1 (delete_cascades 9 1%N
                    (execute_all (triggers installed)
                       [(1, INSERT_INTO_messages
                              (Messages.defaults 3%N 1 2%N (lit "hello")))]
                       (seeded (triggers installed))))).
    reflexivity.
Defined.

(** *** The timestamp trigger *)

Lemma before_update_installed_users now (r : Users.row) :
  before_update (triggers installed) now users_table r
  = update_updated_at_column now r.
Proof. reflexivity. Qed.

Lemma before_update_installed_sessions now (r : Sessions.row) :
  before_update (triggers installed) now sessions_table r
  = update_updated_at_column now r.
Proof. reflexivity. Qed.

(** C8. An [UPDATE] of a row of [users] or of [sessions] that goes
    through stores the row the [SET] list produced with [updated_at]
    replaced by the current time, whatever the [SET] list had put there;
    every other column is the one the [SET] list produced. *)
Theorem updated_at_overwritten_on_update (now : timestamptz) :
  (forall k set db db' OLD,
     find (user_is k) (users db) = Some OLD ->
     run (triggers installed) now (UPDATE_users k set) db = Ok db' ->
     exists NEW,
       users db' = replace (user_is k) NEW (users db)
       /\ In NEW (users db')
       /\ Users.updated_at NEW = Some now
       /\ Users.same_other_columns NEW (set OLD))
  /\ (forall k set db db' OLD assigned,
        find (session_is k) (sessions db) = Some OLD ->
        set OLD = Ok assigned ->
        run (triggers installed) now (UPDATE_sessions k set) db = Ok db' ->
        exists NEW,
          sessions db' = replace (session_is k) NEW (sessions db)
          /\ In NEW (sessions db')
          /\ Sessions.updated_at NEW = Some now
          /\ Sessions.same_other_columns NEW assigned).
Proof.
  split.
  - intros k set db db' OLD Hfind H.
    cbn [run] in H. unfold update_users in H. rewrite Hfind in H.
    rewrite before_update_installed_users in H.
    ok_steps H. injection H as <-. cbn [users].
    exists (update_updated_at_column now (set OLD)).
    apply find_some in Hfind as [Hin His].
    split; [reflexivity|]. split; [eapply In_replace; eassumption|].
    split; [reflexivity|]. repeat split.
  - intros k set db db' OLD assigned Hfind Hset H.
    cbn [run] in H. unfold update_sessions in H. rewrite Hfind, Hset in H.
    cbn [bind] in H. rewrite before_update_installed_sessions in H.
    ok_steps H. injection H as <-. cbn [sessions].
    exists (update_updated_at_column now assigned).
    apply find_some in Hfind as [Hin His].
    split; [reflexivity|]. split; [eapply In_replace; eassumption|].
    split; [reflexivity|]. repeat split.
Qed.

Lemma updated_at_overwritten_on_update_witness :
  let db := seeded (triggers installed) in
  let set := Users.set_updated_at None in
  let db' := fst (execute (triggers installed) 7 (UPDATE_users 1%N set) db) in
  find (user_is 1%N) (users db) = Some (Users.demo_user 1%N 0)
  /\ run (triggers installed) 7 (UPDATE_users 1%N set) db = Ok db'
  /\ exists NEW,
       users db' = replace (user_is 1%N) NEW (users db)
       /\ In NEW (users db')
       /\ Users.updated_at NEW = Some 7
       /\ Users.same_other_columns NEW (set (Users.demo_user 1%N 0)).
Proof.
  split; [reflexivity|]. split; [reflexivity|].
  apply (proj1 (updated_at_overwritten_on_update 7) 1%N
               (Users.set_updated_at None) (seeded (triggers installed))
               (fst (execute (triggers installed) 7
                       (UPDATE_users 1%N (Users.set_updated_at None))
                       (seeded (triggers installed))))
               (Users.demo_user 1%N 0));
    reflexivity.
Defined.

(** *** The message counter *)

(** What the body of [update_session_message_count] does to the session
    of the row, where it runs. *)
Lemma update_session_message_count_INSERT tgs now r db db' s :
  find (session_is (Messages.session_id r)) (sessions db) = Some s ->
  update_session_message_count tgs now INSERT r db = Ok db' ->
  exists NEW,
    sessions db' = replace (session_is (Messages.session_id r)) NEW (sessions db)
    /\ Sessions.message_count NEW = Sessions.message_count s + 1
    /\ Sessions.updated_at NEW = Some now
    /\ Sessions.id NEW = Sessions.id s.
Proof.
  intros Hfind H. cbn [update_session_message_count] in H.
  unfold update_sessions in H. rewrite Hfind in H.
  apply bind_Ok in H as (assigned & Ha & H).
  apply bind_Ok in Ha as (n & Hn & Ha). apply int4_Ok in Hn.
  injection Ha as <-. ok_steps H. injection H as <-. cbn [sessions].
  eexists. split; [reflexivity|].
  unfold before_update.
  destruct (fires tgs BEFORE UPDATE sessions_table fn_update_updated_at_column);
    repeat split; exact Hn.
Qed.

Lemma update_session_message_count_DELETE tgs now r db db' s :
  find (session_is (Messages.session_id r)) (sessions db) = Some s ->
  update_session_message_count tgs now DELETE r db = Ok db' ->
  exists NEW,
    sessions db' = replace (session_is (Messages.session_id r)) NEW (sessions db)
    /\ Sessions.message_count NEW = Z.max (Sessions.message_count s - 1) 0
    /\ Sessions.updated_at NEW = Some now
    /\ Sessions.id NEW = Sessions.id s.
Proof.
  intros Hfind H. cbn [update_session_message_count] in H.
  unfold update_sessions in H. rewrite Hfind in H.
  apply bind_Ok in H as (assigned & Ha & H).
  apply bind_Ok in Ha as (n & Hn & Ha). apply int4_Ok in Hn.
  injection Ha as <-. ok_steps H. injection H as <-. cbn [sessions].
  eexists. split; [reflexivity|].
  unfold before_update.
  destruct (fires tgs BEFORE UPDATE sessions_table fn_update_updated_at_column);
    repeat split; cbn; rewrite Hn; reflexivity.
Qed.

(** In a database initialised by the script no statement on [messages]
    reaches [sessions]. *)
Lemma messages_statements_leave_sessions now st db :
  match st with
  | INSERT_INTO_messages _ | DELETE_FROM_messages _ | UPDATE_messages _ _ => True
  | _ => False
  end ->
  sessions (fst (execute (triggers installed) now st db)) = sessions db.
Proof.
  unfold execute. destruct st; try contradiction; intros _; cbn [run].
  - unfold insert_messages.
    destruct (require (Messages.fits r) _); [|reflexivity]. cbn [bind].
    destruct (first_violation (Messages.checks r)); [|reflexivity].
    cbn [bind]. destruct (require _ _); [|reflexivity].
    cbn [bind]. destruct (require _ _); [|reflexivity].
    cbn [bind]. rewrite after_messages_installed. reflexivity.
  - unfold update_messages.
    destruct (find (message_is k) (messages db)); [|reflexivity].
    cbv zeta. destruct (require (Messages.fits _) _); [|reflexivity]. cbn [bind].
    destruct (first_violation _); [|reflexivity].
    cbn [bind]. destruct (require _ _); [|reflexivity].
    cbn [bind]. destruct (require _ _); [|reflexivity].
    cbn [bind]. rewrite after_messages_installed. reflexivity.
  - unfold delete_messages. rewrite after_each_installed. reflexivity.
Qed.

(** C2 on a database the script has set up, in which a user and a
    session of theirs have then been inserted
    ([INSERT INTO sessions (user_id) VALUES (...)], so [message_count]
    takes its default 0).  The function [update_session_message_count]
    is written between lone [$] signs, which open no string constant, so
    [CREATE FUNCTION] is rejected and the two [CREATE TRIGGER] statements
    that name the function with it.  A message inserted into the session
    is stored, and the session's [message_count] is still 0 and its
    [updated_at] still the time the session was created; with the
    triggers in place they would be 1 and the time of the insert. *)
Theorem message_insert_leaves_session_as_it_was :
  let setup := [ (0, INSERT_INTO_users (Users.demo_user 1%N 0));
                 (0, INSERT_INTO_sessions (Sessions.defaults 2%N 0 1%N)) ] in
  let db := execute_all (triggers installed) setup empty in
  let m := Messages.defaults 3%N 5 2%N (lit "hello") in
  dolqdelim "$" = false
  /\ triggers installed = [update_users_updated_at; update_sessions_updated_at]
  /\ map Users.id (users db) = [1%N]
  /\ map Sessions.id (sessions db) = [2%N]
  /\ map Sessions.message_count (sessions db) = [0]
  /\ (exists db',
        execute (triggers installed) 5 (INSERT_INTO_messages m) db = (db', None)
        /\ messages db' = [m]
        /\ map Sessions.message_count (sessions db') = [0]
        /\ map Sessions.updated_at (sessions db') = [Some 0])
  /\ (exists db',
        execute declared 5 (INSERT_INTO_messages m) db = (db', None)
        /\ messages db' = [m]
        /\ map Sessions.message_count (sessions db') = [1]
        /\ map Sessions.updated_at (sessions db') = [Some 5]).
Proof.
  repeat split; eexists; repeat split.
Qed.

(** C1 on a database the script has set up: a user and a session of
    theirs are inserted (the session with the default [message_count] of
    0), then three messages of the session are inserted and one of them
    is deleted.  Every statement goes through, two messages of the
    session are stored, and its [message_count] is 0, not
    [max 0 (3 - 1)]; with the triggers in place it would be 2. *)
Theorem message_count_not_maintained :
  let setup := [ (0, INSERT_INTO_users (Users.demo_user 1%N 0));
                 (0, INSERT_INTO_sessions (Sessions.defaults 2%N 0 1%N)) ] in
  let w := [ (5, INSERT_INTO_messages (Messages.defaults 3%N 5 2%N (lit "one")));
             (6, INSERT_INTO_messages (Messages.defaults 4%N 6 2%N (lit "two")));
             (7, DELETE_FROM_messages 3%N);
             (8, INSERT_INTO_messages (Messages.defaults 5%N 8 2%N (lit "three"))) ] in
  let fresh := execute_all (triggers installed) setup empty in
  let db := execute_all (triggers installed) w fresh in
  map Sessions.id (sessions fresh) = [2%N]
  /\ map Sessions.message_count (sessions fresh) = [0]
  /\ messages fresh = []
  /\ tally (triggers installed) 2%N w fresh = (3, 1)
  /\ map Messages.id (messages db) = [4%N; 5%N]
  /\ map Messages.session_id (messages db) = [2%N; 2%N]
  /\ map Sessions.message_count (sessions db) = [0]
  /\ Z.max 0 (3 - 1) = 2
  /\ map Sessions.message_count (sessions (execute_all declared w fresh)) = [2].
Proof. repeat split. Qed.

(** *** What the counter would be with the triggers in place

    The rest is about the catalog [declared], in which the two message
    triggers exist: there the body of [update_session_message_count]
    keeps [message_count] equal to the number of messages of the
    session. *)

Lemma find_replace_same {R : Type} (f : R -> bool) (NEW x : R) (l : list R) :
  find f l = Some x -> f NEW = true -> find f (replace f NEW l) = Some NEW.
Proof.
  intros Hx HN. induction l as [|a l IH]; simpl in *; [discriminate|].
  destruct (f a) eqn:E; simpl.
  - rewrite HN. reflexivity.
  - rewrite E. apply IH. exact Hx.
Qed.

Lemma find_replace_other {R : Type} (f g : R -> bool) (NEW : R) (l : list R) :
  f NEW = false -> (forall r, g r = true -> f r = false) ->
  find f (replace g NEW l) = find f l.
Proof.
  intros HN Hg. induction l as [|a l IH]; simpl; [reflexivity|].
  destruct (g a) eqn:E; simpl.
  - rewrite HN, (Hg _ E). exact IH.
  - destruct (f a); [reflexivity | exact IH].
Qed.

Lemma fires_declared_INSERT :
  fires declared AFTER INSERT messages_table fn_update_session_message_count
  = true.
Proof. reflexivity. Qed.

Lemma fires_declared_DELETE :
  fires declared AFTER DELETE messages_table fn_update_session_message_count
  = true.
Proof. reflexivity. Qed.

(** One firing of the trigger function, seen from session [S]. *)
Lemma trigger_step (S : uuid) tgs now (op : tg_op) r db db' s :
  op <> UPDATE ->
  find (session_is S) (sessions db) = Some s ->
  update_session_message_count tgs now op r db = Ok db' ->
  exists s',
    find (session_is S) (sessions db') = Some s'
    /\ Sessions.message_count s'
       = if message_of S r
         then match op with
              | INSERT => Sessions.message_count s + 1
              | _ => Z.max (Sessions.message_count s - 1) 0
              end
         else Sessions.message_count s.
Proof.
  intros Hop Hfind H.
  unfold message_of. destruct (N.eqb (Messages.session_id r) S) eqn:E.
  - apply N.eqb_eq in E. subst S.
    assert (Hid : Sessions.id s = Messages.session_id r).
    { apply find_some in Hfind as [_ Hs]. apply N.eqb_eq in Hs. exact Hs. }
    destruct op; [|contradiction|].
    + destruct (update_session_message_count_INSERT _ _ _ _ _ _ Hfind H)
        as (NEW & Hs & Hc & _ & Hi).
      exists NEW. split; [|exact Hc].
      rewrite Hs. eapply find_replace_same; [exact Hfind|].
      unfold session_is. apply N.eqb_eq. congruence.
    + destruct (update_session_message_count_DELETE _ _ _ _ _ _ Hfind H)
        as (NEW & Hs & Hc & _ & Hi).
      exists NEW. split; [|exact Hc].
      rewrite Hs. eapply find_replace_same; [exact Hfind|].
      unfold session_is. apply N.eqb_eq. congruence.
  - apply N.eqb_neq in E. exists s. split; [|reflexivity].
    rewrite <- Hfind.
    destruct (find (session_is (Messages.session_id r)) (sessions db))
      as [o|] eqn:Ho.
    + assert (Hoid : Sessions.id o = Messages.session_id r).
      { apply find_some in Ho as [_ Ho]. apply N.eqb_eq in Ho. exact Ho. }
      assert (Hother : forall x, session_is (Messages.session_id r) x = true ->
                                 session_is S x = false).
      { intros x Hx. apply N.eqb_eq in Hx. apply N.eqb_neq. congruence. }
      destruct op; [|contradiction|].
      * destruct (update_session_message_count_INSERT _ _ _ _ _ _ Ho H)
          as (NEW & Hs & _ & _ & Hi).
        rewrite Hs. apply find_replace_other; [|exact Hother].
        apply N.eqb_neq. congruence.
      * destruct (update_session_message_count_DELETE _ _ _ _ _ _ Ho H)
          as (NEW & Hs & _ & _ & Hi).
        rewrite Hs. apply find_replace_other; [|exact Hother].
        apply N.eqb_neq. congruence.
    + destruct op; [|contradiction|];
        cbn [update_session_message_count] in H;
        unfold update_sessions in H; rewrite Ho in H;
        injection H as <-; reflexivity.
Qed.

Lemma after_each_DELETE_declared (S : uuid) now rows db db' s :
  find (session_is S) (sessions db) = Some s ->
  Z.of_nat (List.length (filter (message_of S) rows))
    <= Sessions.message_count s ->
  after_each declared now DELETE rows db = Ok db' ->
  exists s',
    find (session_is S) (sessions db') = Some s'
    /\ Sessions.message_count s'
       = Sessions.message_count s
         - Z.of_nat (List.length (filter (message_of S) rows))
    /\ messages db' = messages db.
Proof.
  revert db s; induction rows as [|r rows IH]; intros db s Hfind Hle H.
  - injection H as <-. exists s. simpl. split; [exact Hfind|].
    split; [lia | reflexivity].
  - cbn [after_each] in H. apply bind_Ok in H as (db1 & H1 & H).
    pose proof (after_messages_frame _ _ _ _ _ _ H1) as [_ Hm1].
    unfold after_messages in H1. rewrite fires_declared_DELETE in H1.
    destruct (trigger_step S _ _ DELETE _ _ _ _ ltac:(discriminate) Hfind H1)
      as (s1 & Hfind1 & Hc1).
    cbn [filter] in Hle |- *.
    destruct (message_of S r); cbn [List.length] in Hle |- *.
    + destruct (IH db1 s1 Hfind1 ltac:(lia) H) as (s' & Hf & Hc & Hm).
      exists s'. split; [exact Hf|]. split; [lia | congruence].
    + destruct (IH db1 s1 Hfind1 ltac:(lia) H) as (s' & Hf & Hc & Hm).
      exists s'. split; [exact Hf|]. split; [lia | congruence].
Qed.

Lemma filter_split_length {R : Type} (f g : R -> bool) (l : list R) :
  List.length (filter f l)
  = (List.length (filter f (filter g l))
     + List.length (filter f (others g l)))%nat.
Proof.
  unfold others. induction l as [|a l IH]; simpl; [reflexivity|].
  destruct (g a); simpl; destruct (f a); simpl; lia.
Qed.

(** One statement of the workload: the counter follows the messages of
    the session. *)
Lemma counted_step (S : uuid) now st db s :
  only_messages [(now, st)] = true ->
  find (session_is S) (sessions db) = Some s ->
  Sessions.message_count s = Z.of_nat (List.length (messages_of S db)) ->
  let db' := fst (execute declared now st db) in
  exists s',
    find (session_is S) (sessions db') = Some s'
    /\ Sessions.message_count s' = Z.of_nat (List.length (messages_of S db'))
    /\ Sessions.message_count s'
       = Sessions.message_count s
         + fst (tally declared S [(now, st)] db)
         - snd (tally declared S [(now, st)] db).
Proof.
  intros Hw Hfind Hc. cbn [tally]. unfold execute.
  destruct (run declared now st db) as [db'|e] eqn:E; cbn [fst].
  2:{ exists s. split; [exact Hfind|]. split; [exact Hc | simpl; lia]. }
  destruct st; try discriminate; cbn [run] in E.
  - (* INSERT INTO messages *)
    unfold insert_messages in E. ok_steps E.
    pose proof (after_messages_frame _ _ _ _ _ _ E) as [_ Hm].
    unfold after_messages in E. rewrite fires_declared_INSERT in E.
    destruct (trigger_step S declared now INSERT r
                (mk_database (users db) (sessions db) (messages db ++ [r]))
                db' s ltac:(discriminate) Hfind E)
      as (s' & Hf & Hs').
    exists s'. split; [exact Hf|].
    unfold messages_of in *. rewrite Hm. cbn [messages].
    rewrite filter_app, length_app. cbn [filter].
    destruct (message_of S r); cbn [List.length fst snd]; split; lia.
  - (* DELETE FROM messages *)
    unfold delete_messages in E.
    pose proof (filter_split_length (message_of S) (message_is k) (messages db))
      as Hsplit.
    unfold messages_of in *.
    destruct (after_each_DELETE_declared S now
                (filter (message_is k) (messages db))
                (mk_database (users db) (sessions db)
                             (others (message_is k) (messages db)))
                db' s Hfind ltac:(lia) E)
      as (s' & Hf & Hs' & Hm).
    exists s'. split; [exact Hf|].
    rewrite Hm. cbn [messages fst snd]. split; lia.
Qed.

(** With the triggers in place: from a session whose counter equals the
    number of its messages, a workload of message inserts and deletes
    leaves the counter at that number plus the rows inserted minus the
    rows deleted, which is again the number of its messages. *)
Lemma counted_workload (S : uuid) w db s :
  only_messages w = true ->
  find (session_is S) (sessions db) = Some s ->
  Sessions.message_count s = Z.of_nat (List.length (messages_of S db)) ->
  exists s',
    find (session_is S) (sessions (execute_all declared w db)) = Some s'
    /\ Sessions.message_count s'
       = Z.of_nat (List.length (messages_of S (execute_all declared w db)))
    /\ Sessions.message_count s'
       = Sessions.message_count s
         + fst (tally declared S w db) - snd (tally declared S w db).
Proof.
  revert db s; induction w as [|[now st] w IH]; intros db s Hw Hfind Hc.
  - exists s. simpl. split; [exact Hfind|]. split; [exact Hc | lia].
  - cbn [only_messages forallb] in Hw. apply andb_true_iff in Hw as [Hst Hw].
    assert (Hone : only_messages [(now, st)] = true).
    { cbn [only_messages forallb]. rewrite Hst. reflexivity. }
    destruct (counted_step S now st db s Hone Hfind Hc) as (s1 & Hf1 & Hc1 & Ht1).
    destruct (IH _ s1 Hw Hf1 Hc1) as (s' & Hf & Hc' & Ht).
    cbn [execute_all]. exists s'. split; [exact Hf|]. split; [exact Hc'|].
    rewrite Ht, Ht1. cbn [tally].
    destruct (execute declared now st db) as [db1 raised]. cbn [fst].
    destruct (tally declared S w db1) as [ins del].
    destruct raised; destruct st; try discriminate; cbn [fst snd];
      try destruct (message_of S r); cbn [fst snd]; lia.
Qed.

(** With the triggers in place, C1 holds: for a session created with the
    default count of 0 and no message yet, the counter after a workload of
    message inserts and deletes is [max 0 (inserts - deletes)]. *)
Lemma message_count_with_triggers (S : uuid) w db s :
  only_messages w = true ->
  find (session_is S) (sessions db) = Some s ->
  Sessions.message_count s = 0 ->
  messages_of S db = [] ->
  exists s',
    find (session_is S) (sessions (execute_all declared w db)) = Some s'
    /\ Sessions.message_count s'
       = Z.max 0 (fst (tally declared S w db) - snd (tally declared S w db)).
Proof.
  intros Hw Hfind H0 Hnil.
  destruct (counted_workload S w db s Hw Hfind) as (s' & Hf & Hc & Ht).
  { rewrite Hnil, H0. reflexivity. }
  exists s'. split; [exact Hf|]. lia.
Qed.

End SqlFacts.

(* ===================================================================== *)
(** ** Integrity of the stored rows *)
(* ===================================================================== *)

Module SqlIntegrity.
Import Text Sql SqlFacts.

(** *** Lists of rows and their keys *)

Lemma existsb_false {R : Type} (f : R -> bool) (l : list R) :
  existsb f l = false -> forall r, In r l -> f r = false.
Proof.
  intros H r Hin. destruct (f r) eqn:E; [|reflexivity].
  assert (existsb f l = true) by (apply existsb_exists; eauto). congruence.
Qed.

Lemma NoDup_map_snoc {R K : Type} (key : R -> K) (l : list R) (r : R) :
  NoDup (map key l) -> (forall x, In x l -> key x <> key r) ->
  NoDup (map key (l ++ [r])).
Proof.
  intros Hl Hr. rewrite map_app. simpl.
  apply NoDup_app; [exact Hl | repeat constructor; auto |].
  intros a Ha [<-|[]]. apply in_map_iff in Ha as (x & Hx & Hin).
  exact (Hr x Hin Hx).
Qed.

Lemma NoDup_map_others {R K : Type} (key : R -> K) (f : R -> bool) (l : list R) :
  NoDup (map key l) -> NoDup (map key (others f l)).
Proof.
  unfold others. induction l as [|a l IH]; simpl; intros H; [constructor|].
  inversion H as [|? ? Hn Hl]; subst.
  destruct (negb (f a)); simpl; [|auto].
  constructor; [|auto].
  intros Hin. apply Hn. apply in_map_iff in Hin as (x & Hx & Hin).
  apply filter_In in Hin as [Hin _]. apply in_map_iff. eauto.
Qed.

Lemma replace_none {R : Type} (f : R -> bool) (NEW : R) (l : list R) :
  (forall r, In r l -> f r = false) -> replace f NEW l = l.
Proof.
  unfold replace. induction l as [|a l IH]; simpl; intros H; [reflexivity|].
  rewrite (H a (or_introl eq_refl)). f_equal. apply IH. auto.
Qed.

(** Replacing the row of key [k] by [NEW] keeps a column unique when
    [NEW] does not collide with the other rows. *)
Lemma NoDup_map_replace {R K : Type} (id : R -> N) (key : R -> K) (k : N)
    (NEW : R) (l : list R) :
  NoDup (map id l) -> NoDup (map key l) ->
  (forall r, In r l -> N.eqb (id r) k = false -> key r <> key NEW) ->
  NoDup (map key (replace (fun r => N.eqb (id r) k) NEW l)).
Proof.
  induction l as [|a l IH]; intros Hid Hkey Hnew; [constructor|].
  inversion Hid as [|? ? Hida Hidl]; subst.
  inversion Hkey as [|? ? Hkeya Hkeyl]; subst.
  unfold replace in *. simpl. destruct (N.eqb (id a) k) eqn:E.
  - apply N.eqb_eq in E.
    assert (Hno : forall r, In r l -> N.eqb (id r) k = false).
    { intros r Hr. apply N.eqb_neq. intros Heq. apply Hida.
      apply in_map_iff. exists r. split; [congruence | exact Hr]. }
    fold (replace (fun r => N.eqb (id r) k) NEW l).
    rewrite (replace_none _ NEW l Hno).
    constructor; [|exact Hkeyl].
    intros Hin. apply in_map_iff in Hin as (x & Hx & Hin).
    apply (Hnew x (or_intror Hin) (Hno x Hin)). exact Hx.
  - constructor.
    + intros Hin. apply in_map_iff in Hin as (x & Hx & Hin).
      apply in_map_iff in Hin as (y & Hy & Hin).
      destruct (N.eqb (id y) k) eqn:Ey.
      * subst x. apply (Hnew a (or_introl eq_refl) E). symmetry. exact Hx.
      * subst x. apply Hkeya. apply in_map_iff. eauto.
    + apply IH; auto. intros r Hr. apply Hnew. right. exact Hr.
Qed.

(** *** One statement at a time

    An invariant of the database is kept by every statement as soon as it
    is kept by the writes the statements are made of. *)
Section Invariant.

Variable tgs : list trigger.
Variable G : database -> Prop.

Hypothesis G_update_sessions : forall now k set db db',
  G db -> update_sessions tgs now k set db = Ok db' -> G db'.
Hypothesis G_insert_users : forall r db db',
  G db -> insert_users r db = Ok db' -> G db'.
Hypothesis G_update_users : forall now k set db db',
  G db -> update_users tgs now k set db = Ok db' -> G db'.
Hypothesis G_insert_sessions : forall r db db',
  G db -> insert_sessions r db = Ok db' -> G db'.
Hypothesis G_delete_users : forall k db,
  G db ->
  G (mk_database (others (user_is k) (users db))
       (others (session_of k) (sessions db))
       (others (fun m => existsb (fun s => message_of (Sessions.id s) m)
                           (filter (session_of k) (sessions db)))
               (messages db))).
Hypothesis G_delete_sessions : forall k db,
  G db ->
  G (mk_database (users db) (others (session_is k) (sessions db))
       (others (message_of k) (messages db))).
Hypothesis G_delete_messages : forall k db,
  G db ->
  G (mk_database (users db) (sessions db) (others (message_is k) (messages db))).
Hypothesis G_insert_messages : forall r db,
  G db ->
  first_violation (Messages.checks r) = Ok tt ->
  existsb (message_is (Messages.id r)) (messages db) = false ->
  existsb (session_is (Messages.session_id r)) (sessions db) = true ->
  G (mk_database (users db) (sessions db) (messages db ++ [r])).
Hypothesis G_update_messages : forall k OLD NEW db,
  G db ->
  find (message_is k) (messages db) = Some OLD ->
  first_violation (Messages.checks NEW) = Ok tt ->
  existsb (message_is (Messages.id NEW)) (others (message_is k) (messages db))
    = false ->
  (Messages.session_id NEW = Messages.session_id OLD
   \/ existsb (session_is (Messages.session_id NEW)) (sessions db) = true) ->
  G (mk_database (users db) (sessions db)
       (replace (message_is k) NEW (messages db))).

Lemma after_messages_kept now op r db db' :
  G db -> after_messages tgs now op r db = Ok db' -> G db'.
Proof.
  unfold after_messages, update_session_message_count. intros Hdb.
  destruct (fires tgs AFTER op messages_table fn_update_session_message_count).
  - destruct op; intros H.
    + eapply G_update_sessions; eassumption.
    + injection H as <-. exact Hdb.
    + eapply G_update_sessions; eassumption.
  - intros H. injection H as <-. exact Hdb.
Qed.

Lemma after_each_kept now op rows db db' :
  G db -> after_each tgs now op rows db = Ok db' -> G db'.
Proof.
  revert db; induction rows as [|r rows IH]; cbn [after_each]; intros db Hdb H.
  - injection H as <-. exact Hdb.
  - apply bind_Ok in H as (db1 & H1 & H).
    eapply IH; [|exact H]. eapply after_messages_kept; eassumption.
Qed.

Lemma run_kept now st db db' :
  G db -> run tgs now st db = Ok db' -> G db'.
Proof.
  intros Hdb H. destruct st; cbn [run] in H.
  - eapply G_insert_users; eassumption.
  - eapply G_update_users; eassumption.
  - unfold delete_users in H.
    destruct (existsb (user_is k) (users db)).
    + eapply after_each_kept; [|exact H]. apply G_delete_users. exact Hdb.
    + injection H as <-. exact Hdb.
  - eapply G_insert_sessions; eassumption.
  - eapply G_update_sessions; eassumption.
  - unfold delete_sessions in H.
    destruct (existsb (session_is k) (sessions db)).
    + eapply after_each_kept; [|exact H]. apply G_delete_sessions. exact Hdb.
    + injection H as <-. exact Hdb.
  - unfold insert_messages in H.
    apply bind_Ok in H as ([] & _ & H).
    apply bind_Ok in H as ([] & Hc & H).
    apply bind_Ok in H as ([] & Hpk & H). apply require_Ok in Hpk.
    apply bind_Ok in H as ([] & Hfk & H). apply require_Ok in Hfk.
    eapply after_messages_kept; [|exact H].
    apply G_insert_messages; auto.
    apply negb_true_iff. exact Hpk.
  - unfold update_messages in H.
    destruct (find (message_is k) (messages db)) as [OLD|] eqn:E.
    + apply bind_Ok in H as ([] & _ & H).
      apply bind_Ok in H as ([] & Hc & H).
      apply bind_Ok in H as ([] & Hpk & H). apply require_Ok in Hpk.
      apply bind_Ok in H as ([] & Hfk & H). apply require_Ok in Hfk.
      eapply after_messages_kept; [|exact H].
      eapply G_update_messages; eauto.
      * apply negb_true_iff. exact Hpk.
      * apply orb_true_iff in Hfk as [Hfk|Hfk]; [left | right; exact Hfk].
        apply N.eqb_eq. exact Hfk.
    + injection H as <-. exact Hdb.
  - unfold delete_messages in H.
    eapply after_each_kept; [|exact H]. apply G_delete_messages. exact Hdb.
Qed.

Lemma execute_all_kept w db : G db -> G (execute_all tgs w db).
Proof.
  revert db; induction w as [|[now st] w IH]; intros db Hdb; cbn [execute_all].
  - exact Hdb.
  - apply IH. unfold execute.
    destruct (run tgs now st db) as [db'|e] eqn:E; cbn [fst].
    + eapply run_kept; eassumption.
    + exact Hdb.
Qed.

End Invariant.

(** *** What a statement that went through has done *)

Lemma insert_users_done r db db' :
  insert_users r db = Ok db' ->
  db' = mk_database (users db ++ [r]) (sessions db) (messages db)
  /\ first_violation (Users.checks r) = Ok tt
  /\ existsb (user_is (Users.id r)) (users db) = false
  /\ existsb (fun u => eqb (Users.username u) (Users.username r)) (users db)
     = false
  /\ existsb (fun u => eqb (Users.email u) (Users.email r)) (users db) = false.
Proof.
  unfold insert_users. intros H.
  apply bind_Ok in H as ([] & _ & H).
  apply bind_Ok in H as ([] & Hc & H).
  apply bind_Ok in H as ([] & H1 & H). apply require_Ok, negb_true_iff in H1.
  apply bind_Ok in H as ([] & H2 & H). apply require_Ok, negb_true_iff in H2.
  apply bind_Ok in H as ([] & H3 & H). apply require_Ok, negb_true_iff in H3.
  injection H as <-. auto.
Qed.

Lemma update_users_done tgs now k set db db' :
  update_users tgs now k set db = Ok db' ->
  db' = db
  \/ exists OLD NEW,
       find (user_is k) (users db) = Some OLD
       /\ db' = mk_database (replace (user_is k) NEW (users db))
                            (sessions db) (messages db)
       /\ first_violation (Users.checks NEW) = Ok tt
       /\ existsb (user_is (Users.id NEW)) (others (user_is k) (users db))
          = false
       /\ existsb (fun u => eqb (Users.username u) (Users.username NEW))
                  (others (user_is k) (users db)) = false
       /\ existsb (fun u => eqb (Users.email u) (Users.email NEW))
                  (others (user_is k) (users db)) = false
       /\ (Users.id NEW = k \/ existsb (session_of k) (sessions db) = false).
Proof.
  unfold update_users.
  destruct (find (user_is k) (users db)) as [OLD|] eqn:E.
  - intros H. right.
    apply bind_Ok in H as ([] & _ & H).
    apply bind_Ok in H as ([] & Hc & H).
    apply bind_Ok in H as ([] & H1 & H). apply require_Ok, negb_true_iff in H1.
    apply bind_Ok in H as ([] & H2 & H). apply require_Ok, negb_true_iff in H2.
    apply bind_Ok in H as ([] & H3 & H). apply require_Ok, negb_true_iff in H3.
    apply bind_Ok in H as ([] & H4 & H). apply require_Ok in H4.
    injection H as <-.
    exists OLD, (before_update tgs now users_table (set OLD)).
    repeat split; auto.
    apply orb_true_iff in H4 as [H4|H4].
    + left. apply N.eqb_eq. exact H4.
    + right. apply negb_true_iff. exact H4.
  - intros H. injection H as <-. left. reflexivity.
Qed.

Lemma insert_sessions_done r db db' :
  insert_sessions r db = Ok db' ->
  db' = mk_database (users db) (sessions db ++ [r]) (messages db)
  /\ first_violation (Sessions.checks r) = Ok tt
  /\ existsb (session_is (Sessions.id r)) (sessions db) = false
  /\ existsb (user_is (Sessions.user_id r)) (users db) = true.
Proof.
  unfold insert_sessions. intros H.
  apply bind_Ok in H as ([] & _ & H).
  apply bind_Ok in H as ([] & Hc & H).
  apply bind_Ok in H as ([] & H1 & H). apply require_Ok, negb_true_iff in H1.
  apply bind_Ok in H as ([] & H2 & H). apply require_Ok in H2.
  injection H as <-. auto.
Qed.

Lemma update_sessions_done tgs now k set db db' :
  update_sessions tgs now k set db = Ok db' ->
  db' = db
  \/ exists OLD NEW,
       find (session_is k) (sessions db) = Some OLD
       /\ db' = mk_database (users db)
                            (replace (session_is k) NEW (sessions db))
                            (messages db)
       /\ first_violation (Sessions.checks NEW) = Ok tt
       /\ existsb (session_is (Sessions.id NEW))
                  (others (session_is k) (sessions db)) = false
       /\ (Sessions.user_id NEW = Sessions.user_id OLD
           \/ existsb (user_is (Sessions.user_id NEW)) (users db) = true)
       /\ (Sessions.id NEW = k \/ existsb (message_of k) (messages db) = false).
Proof.
  unfold update_sessions.
  destruct (find (session_is k) (sessions db)) as [OLD|] eqn:E.
  - intros H. right.
    apply bind_Ok in H as (assigned & Ha & H).
    apply bind_Ok in H as ([] & _ & H).
    apply bind_Ok in H as ([] & Hc & H).
    apply bind_Ok in H as ([] & H1 & H). apply require_Ok, negb_true_iff in H1.
    apply bind_Ok in H as ([] & H2 & H). apply require_Ok in H2.
    apply bind_Ok in H as ([] & H3 & H). apply require_Ok in H3.
    injection H as <-.
    exists OLD, (before_update tgs now sessions_table assigned).
    repeat split; auto.
    + apply orb_true_iff in H2 as [H2|H2]; [left | right; exact H2].
      apply N.eqb_eq. exact H2.
    + apply orb_true_iff in H3 as [H3|H3].
      * left. apply N.eqb_eq. exact H3.
      * right. apply negb_true_iff. exact H3.
  - intros H. injection H as <-. left. reflexivity.
Qed.

Lemma text_eqb_neq (a b : text) : eqb a b = false -> a <> b.
Proof.
  intros H Heq. subst. rewrite TextFacts.eqb_refl in H. discriminate.
Qed.

(** *** Keys stay unique *)

Lemma keys_unique_kept tgs now st db db' :
  keys_unique db -> run tgs now st db = Ok db' -> keys_unique db'.
Proof.
  apply run_kept; clear now st db db'.
  - (* the UPDATE of sessions *)
    intros now k set db db' (Hu & Hn & He & Hs & Hm) H.
    apply update_sessions_done in H
      as [->|(OLD & NEW & _ & -> & _ & Hpk & _)]; [repeat split; assumption|].
    repeat split; cbn [users sessions messages]; try assumption.
    apply (NoDup_map_replace Sessions.id Sessions.id k NEW); try assumption.
    intros r Hr Hk.
    assert (Hin : In r (others (session_is k) (sessions db))).
    { apply In_others. split; [exact Hr | exact Hk]. }
    apply N.eqb_neq. exact (existsb_false _ _ Hpk _ Hin).
  - (* INSERT INTO users *)
    intros r db db' (Hu & Hn & He & Hs & Hm) H.
    apply insert_users_done in H as (-> & _ & H1 & H2 & H3).
    repeat split; cbn [users sessions messages]; try assumption.
    + apply NoDup_map_snoc; [exact Hu|]. intros x Hx.
      apply N.eqb_neq. exact (existsb_false _ _ H1 _ Hx).
    + apply NoDup_map_snoc; [exact Hn|]. intros x Hx.
      apply text_eqb_neq. exact (existsb_false _ _ H2 _ Hx).
    + apply NoDup_map_snoc; [exact He|]. intros x Hx.
      apply text_eqb_neq. exact (existsb_false _ _ H3 _ Hx).
  - (* UPDATE users *)
    intros now k set db db' (Hu & Hn & He & Hs & Hm) H.
    apply update_users_done in H
      as [->|(OLD & NEW & _ & -> & _ & H1 & H2 & H3 & _)];
      [repeat split; assumption|].
    assert (Hrest : forall r, In r (users db) -> N.eqb (Users.id r) k = false ->
                              In r (others (user_is k) (users db))).
    { intros r Hr Hk. apply In_others. split; [exact Hr | exact Hk]. }
    repeat split; cbn [users sessions messages]; try assumption.
    + apply (NoDup_map_replace Users.id Users.id k NEW); try assumption.
      intros r Hr Hk. apply N.eqb_neq. exact (existsb_false _ _ H1 _ (Hrest r Hr Hk)).
    + apply (NoDup_map_replace Users.id Users.username k NEW); try assumption.
      intros r Hr Hk. apply text_eqb_neq. exact (existsb_false _ _ H2 _ (Hrest r Hr Hk)).
    + apply (NoDup_map_replace Users.id Users.email k NEW); try assumption.
      intros r Hr Hk. apply text_eqb_neq. exact (existsb_false _ _ H3 _ (Hrest r Hr Hk)).
  - (* INSERT INTO sessions *)
    intros r db db' (Hu & Hn & He & Hs & Hm) H.
    apply insert_sessions_done in H as (-> & _ & H1 & _).
    repeat split; cbn [users sessions messages]; try assumption.
    apply NoDup_map_snoc; [exact Hs|]. intros x Hx.
    apply N.eqb_neq. exact (existsb_false _ _ H1 _ Hx).
  - (* DELETE FROM users, with its cascade *)
    intros k db (Hu & Hn & He & Hs & Hm).
    repeat split; cbn [users sessions messages];
      apply NoDup_map_others; assumption.
  - (* DELETE FROM sessions, with its cascade *)
    intros k db (Hu & Hn & He & Hs & Hm).
    repeat split; cbn [users sessions messages]; try assumption;
      apply NoDup_map_others; assumption.
  - (* DELETE FROM messages *)
    intros k db (Hu & Hn & He & Hs & Hm).
    repeat split; cbn [users sessions messages]; try assumption.
    apply NoDup_map_others; assumption.
  - (* INSERT INTO messages *)
    intros r db (Hu & Hn & He & Hs & Hm) _ Hpk _.
    repeat split; cbn [users sessions messages]; try assumption.
    apply NoDup_map_snoc; [exact Hm|]. intros x Hx.
    apply N.eqb_neq. exact (existsb_false _ _ Hpk _ Hx).
  - (* UPDATE messages *)
    intros k OLD NEW db (Hu & Hn & He & Hs & Hm) _ _ Hpk _.
    repeat split; cbn [users sessions messages]; try assumption.
    apply (NoDup_map_replace Messages.id Messages.id k NEW); try assumption.
    intros r Hr Hk.
    assert (Hin : In r (others (message_is k) (messages db))).
    { apply In_others. split; [exact Hr | exact Hk]. }
    apply N.eqb_neq. exact (existsb_false _ _ Hpk _ Hin).
Qed.

Lemma workload_kept (tgs : list trigger) (G : database -> Prop) :
  (forall now st db db', G db -> run tgs now st db = Ok db' -> G db') ->
  forall w db, G db -> G (execute_all tgs w db).
Proof.
  intros Hrun. induction w as [|[now st] w IH]; intros db Hdb;
    cbn [execute_all]; [exact Hdb|].
  apply IH. unfold execute.
  destruct (run tgs now st db) as [db'|e] eqn:E; cbn [fst];
    [eapply Hrun; eassumption | exact Hdb].
Qed.

Lemma keys_always_unique_lemma (tgs : list trigger)
    (w : list (timestamptz * statement)) :
  keys_unique (execute_all tgs w empty).
Proof.
  apply workload_kept.
  - intros now st db db'. apply keys_unique_kept.
  - repeat split; constructor.
Qed.

(** X1. Whatever statements have run on the empty database, and whatever
    triggers exist, [id] is unique in each of the three tables and no two
    users share a [username] or an [email]. *)
Theorem keys_always_unique (tgs : list trigger)
    (w : list (timestamptz * statement)) :
  keys_unique (execute_all tgs w empty).
Proof. apply keys_always_unique_lemma. Qed.

(** *** References resolve *)

Lemma existsb_user k (l : list Users.row) :
  existsb (user_is k) l = true <-> exists u, In u l /\ Users.id u = k.
Proof.
  rewrite existsb_exists. unfold user_is.
  split; intros (u & Hin & H); exists u; split; auto; apply N.eqb_eq; exact H.
Qed.

Lemma existsb_session k (l : list Sessions.row) :
  existsb (session_is k) l = true <-> exists s, In s l /\ Sessions.id s = k.
Proof.
  rewrite existsb_exists. unfold session_is.
  split; intros (u & Hin & H); exists u; split; auto; apply N.eqb_eq; exact H.
Qed.

Lemma In_replace_keep {R : Type} (f : R -> bool) (NEW r : R) (l : list R) :
  In r l -> f r = false -> In r (replace f NEW l).
Proof.
  intros Hin Hf. unfold replace. apply in_map_iff.
  exists r. rewrite Hf. auto.
Qed.

Lemma references_resolve_kept tgs now st db db' :
  references_resolve db -> run tgs now st db = Ok db' -> references_resolve db'.
Proof.
  apply run_kept; clear now st db db'.
  - (* the UPDATE of sessions *)
    intros now k set db db' [Hs Hm] H.
    apply update_sessions_done in H
      as [->|(OLD & NEW & Hfind & -> & _ & _ & Hfk & Hid)]; [split; assumption|].
    apply find_some in Hfind as [HOLD Hk].
    split; cbn [users sessions messages].
    + intros s Hin. apply In_replace_inv in Hin as [->|Hin]; [|auto].
      destruct Hfk as [Hfk|Hfk].
      * rewrite Hfk. apply Hs. exact HOLD.
      * apply existsb_user. exact Hfk.
    + intros m Hin. destruct (Hm m Hin) as (s & Hsin & Hsid).
      destruct (session_is k s) eqn:E.
      * exists NEW. split; [eapply In_replace; eassumption|].
        apply N.eqb_eq in E.
        destruct Hid as [Hid|Hid]; [congruence|].
        assert (message_of k m = false) by exact (existsb_false _ _ Hid _ Hin).
        unfold message_of in *. apply N.eqb_neq in H. congruence.
      * exists s. split; [apply In_replace_keep; assumption | exact Hsid].
  - (* INSERT INTO users *)
    intros r db db' [Hs Hm] H.
    apply insert_users_done in H as (-> & _).
    split; cbn [users sessions messages]; [|exact Hm].
    intros s Hin. destruct (Hs s Hin) as (u & Hu & Hid).
    exists u. split; [apply in_or_app; left; exact Hu | exact Hid].
  - (* UPDATE users *)
    intros now k set db db' [Hs Hm] H.
    apply update_users_done in H
      as [->|(OLD & NEW & Hfind & -> & _ & _ & _ & _ & Hid)]; [split; assumption|].
    apply find_some in Hfind as [HOLD Hk].
    split; cbn [users sessions messages]; [|exact Hm].
    intros s Hin. destruct (Hs s Hin) as (u & Hu & Huid).
    destruct (user_is k u) eqn:E.
    + exists NEW. split; [eapply In_replace; eassumption|].
      apply N.eqb_eq in E.
      destruct Hid as [Hid|Hid]; [congruence|].
      assert (session_of k s = false) by exact (existsb_false _ _ Hid _ Hin).
      unfold session_of in *. apply N.eqb_neq in H. congruence.
    + exists u. split; [apply In_replace_keep; assumption | exact Huid].
  - (* INSERT INTO sessions *)
    intros r db db' [Hs Hm] H.
    apply insert_sessions_done in H as (-> & _ & _ & Hfk).
    split; cbn [users sessions messages].
    + intros s Hin. apply in_app_or in Hin as [Hin|[<-|[]]]; [auto|].
      apply existsb_user. exact Hfk.
    + intros m Hin. destruct (Hm m Hin) as (s & Hsin & Hsid).
      exists s. split; [apply in_or_app; left; exact Hsin | exact Hsid].
  - (* DELETE FROM users, with its cascade *)
    intros k db [Hs Hm]. split; cbn [users sessions messages].
    + intros s Hin. apply In_others in Hin as [Hin Hk].
      destruct (Hs s Hin) as (u & Hu & Huid).
      exists u. split; [|exact Huid].
      apply In_others. split; [exact Hu|].
      unfold user_is, session_of in *. congruence.
    + intros m Hin. apply In_others in Hin as [Hin Horphan].
      destruct (Hm m Hin) as (s & Hsin & Hsid).
      exists s. split; [|exact Hsid].
      apply In_others. split; [exact Hsin|].
      destruct (session_of k s) eqn:E; [|reflexivity].
      assert (Hex : existsb (fun s0 => message_of (Sessions.id s0) m)
                            (filter (session_of k) (sessions db)) = true).
      { apply existsb_exists. exists s. split.
        - apply filter_In. split; assumption.
        - unfold message_of. apply N.eqb_eq. congruence. }
      congruence.
  - (* DELETE FROM sessions, with its cascade *)
    intros k db [Hs Hm]. split; cbn [users sessions messages].
    + intros s Hin. apply In_others in Hin as [Hin _]. auto.
    + intros m Hin. apply In_others in Hin as [Hin Hk].
      destruct (Hm m Hin) as (s & Hsin & Hsid).
      exists s. split; [|exact Hsid].
      apply In_others. split; [exact Hsin|].
      unfold session_is, message_of in *. congruence.
  - (* DELETE FROM messages *)
    intros k db [Hs Hm]. split; cbn [users sessions messages]; [exact Hs|].
    intros m Hin. apply In_others in Hin as [Hin _]. auto.
  - (* INSERT INTO messages *)
    intros r db [Hs Hm] _ _ Hfk.
    split; cbn [users sessions messages]; [exact Hs|].
    intros m Hin. apply in_app_or in Hin as [Hin|[<-|[]]]; [auto|].
    apply existsb_session. exact Hfk.
  - (* UPDATE messages *)
    intros k OLD NEW db [Hs Hm] Hfind _ _ Hfk.
    apply find_some in Hfind as [HOLD _].
    split; cbn [users sessions messages]; [exact Hs|].
    intros m Hin. apply In_replace_inv in Hin as [->|Hin]; [|auto].
    destruct Hfk as [Hfk|Hfk].
    + rewrite Hfk. apply Hm. exact HOLD.
    + apply existsb_session. exact Hfk.
Qed.

Lemma references_always_resolve_lemma (tgs : list trigger)
    (w : list (timestamptz * statement)) :
  references_resolve (execute_all tgs w empty).
Proof.
  apply workload_kept.
  - intros now st db db'. apply references_resolve_kept.
  - split; intros x [].
Qed.

(** X2. Whatever statements have run on the empty database, and whatever
    triggers exist, every session belongs to a stored user and every
    message to a stored session: the cascades and the foreign-key checks
    leave no dangling reference. *)
Theorem references_always_resolve (tgs : list trigger)
    (w : list (timestamptz * statement)) :
  references_resolve (execute_all tgs w empty).
Proof. apply references_always_resolve_lemma. Qed.

(** *** Checks hold *)

Lemma all_hold_replace {R : Type} (checks : R -> list (string * bool))
    (f : R -> bool) (NEW : R) (l : list R) :
  first_violation (checks NEW) = Ok tt ->
  (forall r, In r l -> all_hold (checks r)) ->
  forall r, In r (replace f NEW l) -> all_hold (checks r).
Proof.
  intros HN Hl r Hin. apply In_replace_inv in Hin as [->|Hin]; [|auto].
  exact (first_violation_Ok _ _ HN).
Qed.

Lemma all_hold_snoc {R : Type} (checks : R -> list (string * bool))
    (NEW : R) (l : list R) :
  first_violation (checks NEW) = Ok tt ->
  (forall r, In r l -> all_hold (checks r)) ->
  forall r, In r (l ++ [NEW]) -> all_hold (checks r).
Proof.
  intros HN Hl r Hin. apply in_app_or in Hin as [Hin|[<-|[]]]; [auto|].
  exact (first_violation_Ok _ _ HN).
Qed.

Lemma all_hold_others {R : Type} (checks : R -> list (string * bool))
    (f : R -> bool) (l : list R) :
  (forall r, In r l -> all_hold (checks r)) ->
  forall r, In r (others f l) -> all_hold (checks r).
Proof. intros Hl r Hin. apply In_others in Hin as [Hin _]. auto. Qed.

Lemma checks_hold_kept tgs now st db db' :
  checks_hold db -> run tgs now st db = Ok db' -> checks_hold db'.
Proof.
  apply run_kept; clear now st db db'.
  - intros now k set db db' (Hu & Hs & Hm) H.
    apply update_sessions_done in H
      as [->|(OLD & NEW & _ & -> & Hc & _)]; [repeat split; assumption|].
    repeat split; cbn [users sessions messages]; try assumption.
    apply all_hold_replace; assumption.
  - intros r db db' (Hu & Hs & Hm) H.
    apply insert_users_done in H as (-> & Hc & _).
    repeat split; cbn [users sessions messages]; try assumption.
    apply all_hold_snoc; assumption.
  - intros now k set db db' (Hu & Hs & Hm) H.
    apply update_users_done in H
      as [->|(OLD & NEW & _ & -> & Hc & _)]; [repeat split; assumption|].
    repeat split; cbn [users sessions messages]; try assumption.
    apply all_hold_replace; assumption.
  - intros r db db' (Hu & Hs & Hm) H.
    apply insert_sessions_done in H as (-> & Hc & _).
    repeat split; cbn [users sessions messages]; try assumption.
    apply all_hold_snoc; assumption.
  - intros k db (Hu & Hs & Hm).
    repeat split; cbn [users sessions messages];
      apply all_hold_others; assumption.
  - intros k db (Hu & Hs & Hm).
    repeat split; cbn [users sessions messages]; try assumption;
      apply all_hold_others; assumption.
  - intros k db (Hu & Hs & Hm).
    repeat split; cbn [users sessions messages]; try assumption.
    apply all_hold_others; assumption.
  - intros r db (Hu & Hs & Hm) Hc _ _.
    repeat split; cbn [users sessions messages]; try assumption.
    apply all_hold_snoc; assumption.
  - intros k OLD NEW db (Hu & Hs & Hm) _ Hc _ _.
    repeat split; cbn [users sessions messages]; try assumption.
    apply all_hold_replace; assumption.
Qed.

Lemma checks_hold_reachable (tgs : list trigger)
    (w : list (timestamptz * statement)) :
  checks_hold (execute_all tgs w empty).
Proof.
  apply workload_kept.
  - intros now st db db'. apply checks_hold_kept.
  - repeat split; intros x [].
Qed.

(** X3. Whatever statements have run on the empty database, and whatever
    triggers exist, every stored row satisfies every CHECK of its table:
    in particular no stored message has blank content, every stored
    username has at least 3 characters, and every stored session has one
    of the four session types and one of the four statuses. *)
Theorem checks_always_hold (tgs : list trigger)
    (w : list (timestamptz * statement)) :
  let db := execute_all tgs w empty in
  checks_hold db
  /\ (forall m, In m (messages db) -> Messages.TRIM (Messages.content m) <> [])
  /\ (forall u, In u (users db) -> (3 <= List.length (Users.username u))%nat)
  /\ (forall s, In s (sessions db) ->
        Sessions.sessions_valid_type s = true
        /\ Sessions.sessions_valid_status s = true).
Proof.
  pose proof (checks_hold_reachable tgs w) as H.
  cbv zeta. split; [exact H|]. destruct H as (Hu & Hs & Hm).
  split; [|split].
  - intros m Hin Hnil.
    assert (Hc : Messages.messages_content_not_empty m = true).
    { apply (Hm m Hin "messages_content_not_empty"%string). left. reflexivity. }
    unfold Messages.messages_content_not_empty in Hc. rewrite Hnil in Hc.
    discriminate.
  - intros u Hin.
    assert (Hc : Users.users_username_length u = true).
    { apply (Hu u Hin "users_username_length"%string).
      right. right. left. reflexivity. }
    apply Nat.leb_le. exact Hc.
  - intros s Hin. split.
    + apply (Hs s Hin "sessions_valid_type"%string).
      right. right. right. left. reflexivity.
    + apply (Hs s Hin "sessions_valid_status"%string).
      right. right. left. reflexivity.
Qed.


Lemma checks_always_hold_witness :
  let db := execute_all declared
              [(0, INSERT_INTO_users (Users.demo_user 1%N 0))] empty in
  let u := Users.demo_user 1%N 0 in
  In u (users db) /\ (3 <= List.length (Users.username u))%nat.
Proof.
  split.
  - left. reflexivity.
  - apply (proj1 (proj2 (proj2 (checks_always_hold declared
             [(0, INSERT_INTO_users (Users.demo_user 1%N 0))])))).
    left. reflexivity.
Defined.

End SqlIntegrity.

(* ===================================================================== *)
(** ** The views *)
(* ===================================================================== *)

Module SqlViews.
Import Text Sql SqlFacts SqlIntegrity.

Lemma flat_map_none {R B : Type} (key : R -> N) (k : N) (g : R -> list B)
    (l : list R) :
  (forall x, In x l -> key x <> k) ->
  flat_map (fun x => if N.eqb k (key x) then g x else []) l = [].
Proof.
  induction l as [|a l IH]; simpl; intros H; [reflexivity|].
  assert (Ha : N.eqb k (key a) = false).
  { apply N.eqb_neq. intros Heq. apply (H a (or_introl eq_refl)). congruence. }
  rewrite Ha. simpl. apply IH. auto.
Qed.

(** Joining on a unique key picks the one row that has it. *)
Lemma flat_map_one {R B : Type} (key : R -> N) (k : N) (g : R -> list B)
    (l : list R) (u : R) :
  NoDup (map key l) -> In u l -> key u = k ->
  flat_map (fun x => if N.eqb k (key x) then g x else []) l = g u.
Proof.
  induction l as [|a l IH]; simpl; intros Hnd Hin Hk; [contradiction|].
  inversion Hnd as [|? ? Ha Hl]; subst.
  destruct Hin as [->|Hin].
  - rewrite N.eqb_refl. rewrite flat_map_none; [apply app_nil_r|].
    intros x Hx Heq. apply Ha. apply in_map_iff. eauto.
  - assert (Hne : N.eqb (key u) (key a) = false).
    { apply N.eqb_neq. intros Heq. apply Ha. rewrite <- Heq.
      apply in_map. exact Hin. }
    rewrite Hne. simpl. apply IH; auto.
Qed.

Lemma flat_map_nil {R B : Type} (l : list R) :
  flat_map (fun _ : R => @nil B) l = [].
Proof. induction l; simpl; auto. Qed.

Lemma active_sessions_ids (db : database) :
  keys_unique db -> references_resolve db ->
  map as_session_id (active_sessions_with_users db)
  = map Sessions.id
      (filter (fun s => IS_TRUE (Sessions.is_active s)) (sessions db)).
Proof.
  intros (Hu & _) [Hs _]. unfold active_sessions_with_users.
  induction (sessions db) as [|s l IH]; [reflexivity|].
  cbn [flat_map filter]. rewrite map_app, IH by (intros; apply Hs; right; auto).
  destruct (Hs s (or_introl eq_refl)) as (u & Hin & Hid).
  destruct (IS_TRUE (Sessions.is_active s)).
  - rewrite (flat_map_ext _
               (fun x => if N.eqb (Sessions.user_id s) (Users.id x)
                         then [mk_active_session (Sessions.id s) (Sessions.mode s)
                                 (Sessions.level s) (Sessions.created_at s)
                                 (Users.id x) (Users.username x)
                                 (Users.native_language x)
                                 (Users.target_language x)
                                 (Users.proficiency_level x)]
                         else []))
      by (intros x; rewrite andb_true_r; reflexivity).
    rewrite (flat_map_one Users.id _ _ _ u Hu Hin Hid). reflexivity.
  - rewrite (flat_map_ext _ (fun _ => []))
      by (intros x; rewrite andb_false_r; reflexivity).
    rewrite flat_map_nil. reflexivity.
Qed.

(** X4. On any database reached from the empty one, the view
    [active_sessions_with_users] lists exactly the sessions whose
    [is_active] is true, each of them once (a session whose flag is false
    or NULL is left out), and every row of the view carries the username
    of the user the session belongs to. *)
Theorem active_sessions_with_users_complete (tgs : list trigger)
    (w : list (timestamptz * statement)) :
  let db := execute_all tgs w empty in
  Permutation (map as_session_id (active_sessions_with_users db))
              (map Sessions.id
                 (filter (fun s => IS_TRUE (Sessions.is_active s)) (sessions db)))
  /\ (forall row, In row (active_sessions_with_users db) ->
        exists s u,
          In s (sessions db) /\ In u (users db)
          /\ Sessions.is_active s = Some true
          /\ Sessions.user_id s = Users.id u
          /\ as_session_id row = Sessions.id s
          /\ as_user_id row = Users.id u
          /\ as_username row = Users.username u).
Proof.
  cbv zeta. split.
  - rewrite active_sessions_ids;
      [reflexivity | apply keys_always_unique_lemma
                   | apply references_always_resolve_lemma].
  - intros row Hin. unfold active_sessions_with_users in Hin.
    apply in_flat_map in Hin as (s & Hs & Hin).
    apply in_flat_map in Hin as (u & Hu & Hin).
    destruct (N.eqb (Sessions.user_id s) (Users.id u)) eqn:E;
      destruct (Sessions.is_active s) as [[|]|] eqn:A;
      simpl in Hin; try contradiction.
    destruct Hin as [<-|[]].
    exists s, u. apply N.eqb_eq in E. repeat split; auto.
Qed.


Lemma active_sessions_with_users_complete_witness :
  let db := seeded declared in
  let row := mk_active_session 2%N None None
               (Some 0) 1%N (lit "demo_user") (lit "TR") (lit "EN") (lit "A2") in
  In row (active_sessions_with_users db)
  /\ exists s u,
       In s (sessions db) /\ In u (users db)
       /\ Sessions.is_active s = Some true
       /\ Sessions.user_id s = Users.id u
       /\ as_session_id row = Sessions.id s
       /\ as_user_id row = Users.id u
       /\ as_username row = Users.username u.
Proof.
  split.
  - left. reflexivity.
  - apply (proj2 (active_sessions_with_users_complete declared
             [ (0, INSERT_INTO_users (Users.demo_user 1%N 0));
               (0, INSERT_INTO_sessions (Sessions.defaults 2%N 0 1%N)) ])).
    left. reflexivity.
Defined.

(** *** ORDER BY *)

Lemma insert_sorted_perm {A : Type} (before : A -> A -> bool) (x : A)
    (l : list A) :
  Permutation (insert_sorted before x l) (x :: l).
Proof.
  induction l as [|y l IH]; simpl; [reflexivity|].
  destruct (before x y); [reflexivity|].
  rewrite IH. apply perm_swap.
Qed.

Lemma ORDER_BY_perm {A : Type} (before : A -> A -> bool) (l : list A) :
  Permutation (ORDER_BY before l) l.
Proof.
  unfold ORDER_BY. induction l as [|x l IH]; simpl; [reflexivity|].
  rewrite insert_sorted_perm. constructor. exact IH.
Qed.

Lemma insert_sorted_Sorted {A : Type} (before : A -> A -> bool) (x : A)
    (l : list A) :
  (forall a b, before a b = false -> before b a = true) ->
  Sorted (fun a b => before a b = true) l ->
  Sorted (fun a b => before a b = true) (insert_sorted before x l).
Proof.
  intros Htotal. induction l as [|y l IH]; simpl; intros Hl.
  - repeat constructor.
  - destruct (before x y) eqn:E.
    + constructor; [exact Hl | constructor; exact E].
    + inversion Hl as [|? ? Hl' Hhd]; subst.
      constructor; [apply IH; exact Hl'|].
      destruct l as [|z l]; simpl.
      * constructor. apply Htotal. exact E.
      * destruct (before x z).
        -- constructor. apply Htotal. exact E.
        -- inversion Hhd; subst. constructor. assumption.
Qed.

Lemma ORDER_BY_Sorted {A : Type} (before : A -> A -> bool) (l : list A) :
  (forall a b, before a b = false -> before b a = true) ->
  Sorted (fun a b => before a b = true) (ORDER_BY before l).
Proof.
  intros Htotal. unfold ORDER_BY. induction l as [|x l IH]; simpl.
  - constructor.
  - apply insert_sorted_Sorted; assumption.
Qed.

Lemma DESC_total (a b : option timestamptz) :
  DESC a b = false -> DESC b a = true.
Proof.
  destruct a as [x|], b as [y|]; simpl; try congruence.
  intros H. apply Z.leb_gt in H. apply Z.leb_le. lia.
Qed.

Lemma messages_with_sessions_ids (db : database) :
  keys_unique db -> references_resolve db ->
  map rm_message_id (messages_with_sessions db)
  = map Messages.id (messages db).
Proof.
  intros (Hu & _ & _ & Hs & _) [Hrs Hrm]. unfold messages_with_sessions.
  induction (messages db) as [|m l IH]; [reflexivity|].
  cbn [flat_map]. rewrite map_app, IH by (intros; apply Hrm; right; auto).
  destruct (Hrm m (or_introl eq_refl)) as (s & Hsin & Hsid).
  destruct (Hrs s Hsin) as (u & Huin & Huid).
  rewrite (flat_map_one Sessions.id _ _ _ s Hs Hsin Hsid).
  rewrite (flat_map_one Users.id _ _ _ u Hu Huin Huid).
  reflexivity.
Qed.

(** X5. The view [recent_messages_with_sessions] is ordered by the
    message's [created_at], latest first and NULL before any timestamp;
    on any database reached from the empty one it holds every stored
    message exactly once, and each row carries the content of its message
    and the username of the owner of the message's session. *)
Theorem recent_messages_with_sessions_ordered (tgs : list trigger)
    (w : list (timestamptz * statement)) :
  let db := execute_all tgs w empty in
  let view := recent_messages_with_sessions db in
  Sorted (fun a b => DESC (rm_message_created_at a) (rm_message_created_at b)
                     = true) view
  /\ Permutation (map rm_message_id view) (map Messages.id (messages db))
  /\ (forall row, In row view ->
        exists m s u,
          In m (messages db) /\ In s (sessions db) /\ In u (users db)
          /\ Messages.session_id m = Sessions.id s
          /\ Sessions.user_id s = Users.id u
          /\ rm_message_id row = Messages.id m
          /\ rm_content row = Messages.content m
          /\ rm_message_created_at row = Messages.created_at m
          /\ rm_username row = Users.username u).
Proof.
  cbv zeta. unfold recent_messages_with_sessions. split; [|split].
  - apply (ORDER_BY_Sorted
             (fun a b => DESC (rm_message_created_at a) (rm_message_created_at b))).
    intros a b. apply DESC_total.
  - rewrite ORDER_BY_perm.
    rewrite messages_with_sessions_ids;
      [reflexivity | apply keys_always_unique_lemma
                   | apply references_always_resolve_lemma].
  - intros row Hin.
    apply (Permutation_in _ (ORDER_BY_perm _ _)) in Hin.
    unfold messages_with_sessions in Hin.
    apply in_flat_map in Hin as (m & Hm & Hin).
    apply in_flat_map in Hin as (s & Hs & Hin).
    destruct (N.eqb (Messages.session_id m) (Sessions.id s)) eqn:Es;
      [|destruct Hin].
    apply in_flat_map in Hin as (u & Hu & Hin).
    destruct (N.eqb (Sessions.user_id s) (Users.id u)) eqn:Eu; [|destruct Hin].
    destruct Hin as [<-|[]].
    apply N.eqb_eq in Es, Eu.
    exists m, s, u. repeat split; auto.
Qed.


Lemma recent_messages_with_sessions_ordered_witness :
  let w := [ (0, INSERT_INTO_users (Users.demo_user 1%N 0));
             (0, INSERT_INTO_sessions (Sessions.defaults 2%N 0 1%N));
             (5, INSERT_INTO_messages (Messages.defaults 3%N 5 2%N (lit "one")));
             (6, INSERT_INTO_messages (Messages.defaults 4%N 6 2%N (lit "two"))) ] in
  let db := execute_all declared w empty in
  map rm_message_id (recent_messages_with_sessions db) = [4%N; 3%N]
  /\ forall row, In row (recent_messages_with_sessions db) ->
       exists m s u,
         In m (messages db) /\ In s (sessions db) /\ In u (users db)
         /\ Messages.session_id m = Sessions.id s
         /\ Sessions.user_id s = Users.id u
         /\ rm_message_id row = Messages.id m
         /\ rm_content row = Messages.content m
         /\ rm_message_created_at row = Messages.created_at m
         /\ rm_username row = Users.username u.
Proof.
  split.
  - reflexivity.
  - apply (proj2 (proj2 (recent_messages_with_sessions_ordered declared
             [ (0, INSERT_INTO_users (Users.demo_user 1%N 0));
               (0, INSERT_INTO_sessions (Sessions.defaults 2%N 0 1%N));
               (5, INSERT_INTO_messages
                     (Messages.defaults 3%N 5 2%N (lit "one")));
               (6, INSERT_INTO_messages
                     (Messages.defaults 4%N 6 2%N (lit "two"))) ]))).
Defined.

End SqlViews.

(* ===================================================================== *)
(** ** More on deletes, inserts and the counter function *)
(* ===================================================================== *)

Module SqlMore.
Import Text Sql SqlFacts SqlIntegrity.

Lemma database_eta (db : database) :
  mk_database (users db) (sessions db) (messages db) = db.
Proof. destruct db. reflexivity. Qed.

(** X6. A delete takes nothing but its cascade: deleting a user keeps
    every other user, every session of another user and every message
    none of whose sessions is that user's; deleting a session keeps all
    users, every other session and every message of another session. *)
Theorem deletes_spare_the_rest (now : timestamptz) (k : uuid) (db : database) :
  (let db' := fst (execute (triggers installed) now (DELETE_FROM_users k) db) in
   (forall u, In u (users db) -> Users.id u <> k -> In u (users db'))
   /\ (forall s, In s (sessions db) -> Sessions.user_id s <> k ->
         In s (sessions db'))
   /\ (forall m, In m (messages db) ->
         (forall s, In s (sessions db) ->
            Sessions.id s = Messages.session_id m -> Sessions.user_id s <> k) ->
         In m (messages db')))
  /\ (let db' := fst (execute (triggers installed) now (DELETE_FROM_sessions k) db) in
      users db' = users db
      /\ (forall s, In s (sessions db) -> Sessions.id s <> k ->
            In s (sessions db'))
      /\ (forall m, In m (messages db) -> Messages.session_id m <> k ->
            In m (messages db'))).
Proof.
  split; cbv zeta; unfold execute; cbn [run].
  - unfold delete_users.
    destruct (existsb (user_is k) (users db)); [|cbn [fst]; auto].
    rewrite after_each_installed. cbn [fst users sessions messages].
    split; [|split].
    + intros u Hin Hk. apply In_others. split; [exact Hin|].
      apply N.eqb_neq. exact Hk.
    + intros s Hin Hk. apply In_others. split; [exact Hin|].
      apply N.eqb_neq. exact Hk.
    + intros m Hin Hm. apply In_others. split; [exact Hin|].
      destruct (existsb _ _) eqn:E; [|reflexivity].
      apply existsb_exists in E as (s & Hs & Hms).
      apply filter_In in Hs as [Hs Hk].
      apply N.eqb_eq in Hms, Hk. exfalso.
      apply (Hm s Hs); congruence.
  - unfold delete_sessions.
    destruct (existsb (session_is k) (sessions db)); [|cbn [fst]; auto].
    rewrite after_each_installed. cbn [fst users sessions messages].
    split; [reflexivity|]. split.
    + intros s Hin Hk. apply In_others. split; [exact Hin|].
      apply N.eqb_neq. exact Hk.
    + intros m Hin Hk. apply In_others. split; [exact Hin|].
      apply N.eqb_neq. exact Hk.
Qed.


Lemma deletes_spare_the_rest_witness :
  let alice := Users.mk 5%N (lit "alice") (lit "alice@example.com") (lit "hash")
                        true (lit "EN") (lit "DE") (lit "A1") None None in
  let db := execute_all (triggers installed)
              [ (1, INSERT_INTO_users alice);
                (2, INSERT_INTO_sessions (Sessions.defaults 6%N 2 5%N)) ]
              (seeded (triggers installed)) in
  let db' := fst (execute (triggers installed) 9 (DELETE_FROM_users 1%N) db) in
  In alice (users db) /\ Users.id alice <> 1%N
  /\ In alice (users db')
  /\ map Sessions.id (sessions db') = [6%N].
Proof.
  split; [right; left; reflexivity|]. split; [discriminate|]. split.
  - apply (proj1 (proj1 (deletes_spare_the_rest 9 1%N
             (execute_all (triggers installed)
                [ (1, INSERT_INTO_users
                        (Users.mk 5%N (lit "alice") (lit "alice@example.com")
                           (lit "hash") true (lit "EN") (lit "DE") (lit "A1")
                           None None));
                  (2, INSERT_INTO_sessions (Sessions.defaults 6%N 2 5%N)) ]
                (seeded (triggers installed)))))).
    + right. left. reflexivity.
    + discriminate.
  - reflexivity.
Defined.

Lemma find_snoc {R : Type} (f : R -> bool) (l : list R) (r : R) :
  existsb f l = false -> f r = true -> find f (l ++ [r]) = Some r.
Proof.
  intros Hl Hr. induction l as [|a l IH]; simpl in *.
  - rewrite Hr. reflexivity.
  - apply orb_false_iff in Hl as [Ha Hl]. rewrite Ha. apply IH. exact Hl.
Qed.

Lemma others_snoc {R : Type} (f : R -> bool) (l : list R) (r : R) :
  existsb f l = false -> f r = true -> others f (l ++ [r]) = l.
Proof.
  intros Hl Hr. unfold others. rewrite filter_app. simpl. rewrite Hr. simpl.
  rewrite app_nil_r. induction l as [|a l IH]; simpl in *; [reflexivity|].
  apply orb_false_iff in Hl as [Ha Hl]. rewrite Ha. simpl. f_equal. auto.
Qed.

(** X7. A message whose insert went through is found under its id, and
    deleting it by that id gives back the database the insert started
    from. *)
Theorem insert_then_delete_message
    (now later : timestamptz) (r : Messages.row) (db db1 : database) :
  execute (triggers installed) now (INSERT_INTO_messages r) db = (db1, None) ->
  find (message_is (Messages.id r)) (messages db1) = Some r
  /\ execute (triggers installed) later (DELETE_FROM_messages (Messages.id r)) db1
     = (db, None).
Proof.
  unfold execute. cbn [run].
  destruct (insert_messages (triggers installed) now r db) as [d|e] eqn:E;
    [|discriminate].
  intros H. injection H as <-.
  unfold insert_messages in E.
  apply bind_Ok in E as ([] & _ & E).
  apply bind_Ok in E as ([] & _ & E).
  apply bind_Ok in E as ([] & Hpk & E). apply require_Ok, negb_true_iff in Hpk.
  apply bind_Ok in E as ([] & _ & E).
  rewrite after_messages_installed in E. injection E as <-.
  assert (Hr : message_is (Messages.id r) r = true) by apply N.eqb_refl.
  cbn [messages]. split.
  - apply find_snoc; assumption.
  - unfold delete_messages. rewrite after_each_installed.
    cbn [users sessions messages]. rewrite others_snoc by assumption.
    rewrite database_eta. reflexivity.
Qed.

Lemma insert_then_delete_message_witness :
  let db := seeded (triggers installed) in
  let r := Messages.defaults 3%N 5 2%N (lit "hello") in
  let db1 := fst (execute (triggers installed) 5 (INSERT_INTO_messages r) db) in
  execute (triggers installed) 5 (INSERT_INTO_messages r) db = (db1, None)
  /\ find (message_is 3%N) (messages db1) = Some r
  /\ execute (triggers installed) 6 (DELETE_FROM_messages 3%N) db1 = (db, None).
Proof.
  split; [reflexivity|].
  apply (insert_then_delete_message 5 6
           (Messages.defaults 3%N 5 2%N (lit "hello"))
           (seeded (triggers installed))).
  reflexivity.
Defined.

(** *** The counter function, wherever it runs *)

Lemma others_replace {R : Type} (f : R -> bool) (NEW : R) (l : list R) :
  f NEW = true -> others f (replace f NEW l) = others f l.
Proof.
  intros HN. unfold others, replace.
  induction l as [|a l IH]; simpl; [reflexivity|].
  destruct (f a) eqn:E; simpl.
  - rewrite HN. simpl. exact IH.
  - rewrite E. simpl. f_equal. exact IH.
Qed.

Lemma map_replace {R K : Type} (key : R -> K) (f : R -> bool) (NEW : R)
    (l : list R) :
  (forall r, f r = true -> key r = key NEW) ->
  map key (replace f NEW l) = map key l.
Proof.
  intros H. unfold replace. induction l as [|a l IH]; simpl; [reflexivity|].
  destruct (f a) eqn:E; simpl; f_equal; auto. symmetry. auto.
Qed.

(** X8. A run of [update_session_message_count] for a message row writes
    to [sessions] only, and there only to the session the row names: the
    users, the messages, the rows of every other session and the ids of
    all sessions are as before. *)
Theorem update_session_message_count_frame
    (tgs : list trigger) (now : timestamptz) (op : tg_op) (r : Messages.row)
    (db db' : database) :
  update_session_message_count tgs now op r db = Ok db' ->
  users db' = users db
  /\ messages db' = messages db
  /\ others (session_is (Messages.session_id r)) (sessions db')
     = others (session_is (Messages.session_id r)) (sessions db)
  /\ map Sessions.id (sessions db') = map Sessions.id (sessions db).
Proof.
  intros H.
  destruct op; [|injection H as <-; auto|].
  - destruct (find (session_is (Messages.session_id r)) (sessions db))
      as [s|] eqn:E.
    + pose proof (update_sessions_frame _ _ _ _ _ _ H) as [Hu Hm].
      destruct (update_session_message_count_INSERT _ _ _ _ _ _ E H)
        as (NEW & Hs & _ & _ & Hid).
      apply find_some in E as [_ Hk]. apply N.eqb_eq in Hk.
      assert (HN : session_is (Messages.session_id r) NEW = true).
      { apply N.eqb_eq. congruence. }
      rewrite Hs. repeat split; auto.
      * apply others_replace. exact HN.
      * apply map_replace. intros x Hx.
        apply N.eqb_eq in Hx, HN. congruence.
    + cbn [update_session_message_count] in H. unfold update_sessions in H.
      rewrite E in H. injection H as <-. auto.
  - destruct (find (session_is (Messages.session_id r)) (sessions db))
      as [s|] eqn:E.
    + pose proof (update_sessions_frame _ _ _ _ _ _ H) as [Hu Hm].
      destruct (update_session_message_count_DELETE _ _ _ _ _ _ E H)
        as (NEW & Hs & _ & _ & Hid).
      apply find_some in E as [_ Hk]. apply N.eqb_eq in Hk.
      assert (HN : session_is (Messages.session_id r) NEW = true).
      { apply N.eqb_eq. congruence. }
      rewrite Hs. repeat split; auto.
      * apply others_replace. exact HN.
      * apply map_replace. intros x Hx.
        apply N.eqb_eq in Hx, HN. congruence.
    + cbn [update_session_message_count] in H. unfold update_sessions in H.
      rewrite E in H. injection H as <-. auto.
Qed.

Lemma update_session_message_count_frame_witness :
  let db := seeded declared in
  let r := Messages.defaults 3%N 5 2%N (lit "hello") in
  let db' := mk_database (users db)
               [Sessions.set_updated_at (Some 5)
                  (Sessions.set_message_count 1 (Sessions.defaults 2%N 0 1%N))]
               (messages db) in
  update_session_message_count declared 5 INSERT r db = Ok db'
  /\ users db' = users db
  /\ messages db' = messages db
  /\ others (session_is 2%N) (sessions db') = others (session_is 2%N) (sessions db)
  /\ map Sessions.id (sessions db') = map Sessions.id (sessions db).
Proof.
  split; [reflexivity|].
  apply (update_session_message_count_frame declared 5 INSERT
           (Messages.defaults 3%N 5 2%N (lit "hello")) (seeded declared)).
  reflexivity.
Defined.

(** X9. The counter is an INTEGER: run for an insert on a session whose
    [message_count] is 2147483647 the function raises
    numeric_value_out_of_range, and so does a run for a delete at
    -2147483648, where [message_count - 1] is out of range before
    GREATEST can floor it.  Where the insert trigger exists, no further
    message can then be inserted into that session. *)
Theorem update_session_message_count_out_of_range
    (tgs : list trigger) (now : timestamptz) (r : Messages.row)
    (db : database) (s : Sessions.row) :
  find (session_is (Messages.session_id r)) (sessions db) = Some s ->
  (Sessions.message_count s = 2147483647 ->
     update_session_message_count tgs now INSERT r db
       = Err numeric_value_out_of_range
     /\ (fires tgs AFTER INSERT messages_table fn_update_session_message_count
           = true ->
         exists e, execute tgs now (INSERT_INTO_messages r) db = (db, Some e)))
  /\ (Sessions.message_count s = - 2147483648 ->
        update_session_message_count tgs now DELETE r db
          = Err numeric_value_out_of_range).
Proof.
  intros Hfind. split.
  - intros Hc.
    assert (Hfire : forall d, sessions d = sessions db ->
              update_session_message_count tgs now INSERT r d
              = Err numeric_value_out_of_range).
    { intros d Hd. cbn [update_session_message_count]. unfold update_sessions.
      rewrite Hd, Hfind. unfold int4pl. rewrite Hc. reflexivity. }
    split; [apply Hfire; reflexivity|].
    intros Hf. unfold execute. cbn [run]. unfold insert_messages.
    destruct (require (Messages.fits r) _); [|cbn [bind]; eauto]. cbn [bind].
    destruct (first_violation (Messages.checks r)); [|cbn [bind]; eauto].
    cbn [bind]. destruct (require _ _); [|cbn [bind]; eauto].
    cbn [bind]. destruct (require _ _); [|cbn [bind]; eauto].
    cbn [bind]. unfold after_messages. rewrite Hf.
    rewrite Hfire by reflexivity. eauto.
  - intros Hc. cbn [update_session_message_count]. unfold update_sessions.
    rewrite Hfind. unfold int4mi. rewrite Hc. reflexivity.
Qed.

Lemma update_session_message_count_out_of_range_witness :
  let full := Sessions.set_message_count 2147483647
                (Sessions.defaults 2%N 0 1%N) in
  let db := mk_database (users (seeded declared)) [full] [] in
  let r := Messages.defaults 3%N 5 2%N (lit "hello") in
  find (session_is (Messages.session_id r)) (sessions db) = Some full
  /\ Sessions.message_count full = 2147483647
  /\ update_session_message_count declared 5 INSERT r db
     = Err numeric_value_out_of_range.
Proof.
  split; [reflexivity|]. split; [reflexivity|].
  apply (proj1 (update_session_message_count_out_of_range declared 5
                  (Messages.defaults 3%N 5 2%N (lit "hello"))
                  (mk_database (users (seeded declared))
                     [Sessions.set_message_count 2147483647
                        (Sessions.defaults 2%N 0 1%N)] [])
                  (Sessions.set_message_count 2147483647
                     (Sessions.defaults 2%N 0 1%N))
                  eq_refl)).
  reflexivity.
Defined.

(** *** The sample data *)

Lemma demo_session_too_long new_id now user_id :
  Sessions.fits (Sessions.demo_session new_id now user_id) = false.
Proof. reflexivity. Qed.

(** X20. The block "Insert Sample Data" never changes the database: on
    an older server or with a user already stored it does nothing, and
    otherwise the mode 'CONVERSATION' of its session, twelve characters
    for a VARCHAR(10), makes it raise, which rolls the sample user back
    as well.  On the empty database it raises
    string_data_right_truncation. *)
Theorem sample_data_never_lands
    (server_version_num : Z) (now : timestamptz) (user_id session_id : uuid)
    (db : database) :
  fst (sample_data server_version_num now user_id session_id db) = db
  /\ (140000 <= server_version_num ->
      sample_data server_version_num now user_id session_id empty
      = (empty, Some string_data_right_truncation)).
Proof.
  split.
  - unfold sample_data.
    destruct (140000 <=? server_version_num); [|reflexivity].
    destruct (users db) eqn:E; [|reflexivity].
    destruct (insert_users (Users.demo_user user_id now) db) as [db1|e];
      [|reflexivity].
    cbn [bind].
    destruct (find _ (users db1)) as [u|]; [|reflexivity].
    unfold insert_sessions. rewrite demo_session_too_long. reflexivity.
  - intros Hv. apply Z.leb_le in Hv. unfold sample_data. rewrite Hv.
    reflexivity.
Qed.

Lemma sample_data_never_lands_witness :
  140000 <= 160004
  /\ sample_data 160004 0 1%N 2%N empty
     = (empty, Some string_data_right_truncation).
Proof.
  split; [lia|].
  apply (proj2 (sample_data_never_lands 160004 0 1%N 2%N empty)). lia.
Defined.

End SqlMore.

(* ===================================================================== *)
(** ** More on the chat client *)
(* ===================================================================== *)

Module ChatMore.
Import Chat ChatFacts.

(** *** The history *)

Lemma step_appends (p : page) (e : event) :
  exists l, messages (step p e) = messages p ++ l /\ (List.length l <= 1)%nat.
Proof.
  destruct e as [v| |i r]; cbn [step].
  - exists []. rewrite app_nil_r. split; [reflexivity | simpl; lia].
  - destruct (send_disabled p) eqn:D.
    + rewrite handleSubmit_blank by exact D.
      exists []. rewrite app_nil_r. split; [reflexivity | simpl; lia].
    + rewrite handleSubmit_sends by exact D.
      eexists. split; [reflexivity | simpl; lia].
  - destruct (nth_error (in_flight p) i) as [c|].
    + set (q := mk_page _ _ _ _ _).
      destruct (resume_appends c r q) as (m & Hm & _).
      exists [m]. split; [exact Hm | simpl; lia].
    + exists []. rewrite app_nil_r. split; [reflexivity | simpl; lia].
Qed.

(** X10. The history is append-only: whatever happens to the page,
    the messages it showed are all still there, unchanged and in the same
    places, followed by at most one new message per event. *)
Theorem history_append_only (es : list event) (p : page) :
  exists l,
    messages (steps es p) = messages p ++ l
    /\ (List.length l <= List.length es)%nat.
Proof.
  revert p; induction es as [|e es IH]; intros p.
  - exists []. rewrite app_nil_r. split; [reflexivity | simpl; lia].
  - change (steps (e :: es) p) with (steps es (step p e)).
    destruct (step_appends p e) as (l1 & H1 & Hl1).
    destruct (IH (step p e)) as (l2 & H2 & Hl2).
    exists (l1 ++ l2). rewrite H2, H1, app_assoc. split; [reflexivity|].
    rewrite length_app. simpl. lia.
Qed.

Lemma sent_by_snoc (s : Sender) (l : list Message) (m : Message) :
  List.length (sent_by s (l ++ [m]))
  = (List.length (sent_by s l)
     + match sender m, s with
       | user, user | bot, bot => 1
       | _, _ => 0
       end)%nat.
Proof.
  unfold sent_by. rewrite filter_app, length_app. simpl.
  destruct (sender m), s; reflexivity.
Qed.

Lemma answered_step (p : page) (e : event) : answered p -> answered (step p e).
Proof.
  intros [Hm Hq]. destruct e as [v| |i r]; cbn [step].
  - split; assumption.
  - destruct (send_disabled p) eqn:D.
    + rewrite handleSubmit_blank by exact D. split; assumption.
    + rewrite handleSubmit_sends by exact D. unfold answered.
      cbn [messages in_flight requests].
      rewrite !sent_by_snoc, !length_app. simpl. lia.
  - destruct (nth_error (in_flight p) i) as [c|] eqn:E; [|split; assumption].
    set (q := mk_page _ _ _ _ _).
    destruct (resume_appends c r q) as (m & Hmsg & Hbot & _ & Hf & Hreq).
    unfold answered. rewrite Hmsg, Hf, Hreq. subst q.
    cbn [messages in_flight requests].
    rewrite !sent_by_snoc, Hbot.
    pose proof (remove_nth_lt _ _ _ E). lia.
Qed.

(** X11. At any moment the user messages in the history are as many as
    the bot messages plus the calls still in flight, and as many as the
    requests issued: each submit that went through sent one request and
    gets exactly one bot message, reply or fallback, when its fetch
    settles. *)
Theorem every_submit_answered_once (es : list event) :
  let p := steps es initial in
  List.length (sent_by user (messages p))
    = (List.length (sent_by bot (messages p)) + List.length (in_flight p))%nat
  /\ List.length (requests p) = List.length (sent_by user (messages p)).
Proof.
  cbv zeta.
  assert (G : forall p, answered p -> answered (steps es p)).
  { induction es as [|e es IH]; intros p Hp; [exact Hp|].
    change (steps (e :: es) p) with (steps es (step p e)).
    apply IH, answered_step, Hp. }
  apply (G initial). split; reflexivity.
Qed.

(** *** The requests *)

Lemma TRIM_of_trim (s : jsstring) : trim s <> [] -> Sql.Messages.TRIM s <> [].
Proof.
  intros H Hnil. apply H. apply TextFacts.strip_nil.
  apply TextFacts.strip_nil in Hnil.
  rewrite forallb_forall in *. intros c Hc.
  specialize (Hnil c Hc). apply N.eqb_eq in Hnil. subst c. reflexivity.
Qed.

Lemma not_disabled_trim (p : page) :
  send_disabled p = false -> trim (inputValue p) <> [].
Proof.
  unfold send_disabled. intros H Hnil. rewrite Hnil in H. discriminate.
Qed.

(** X12. Every request the page issues has role "user", a content that
    is not blank (neither for [trim] nor for the TRIM of the
    [messages_content_not_empty] check of the schema), and a [session_id]
    that is either absent or truthy: never null, never the empty
    string. *)
Theorem requests_well_formed (es : list event) (q : request) :
  In q (requests (steps es initial)) ->
  role q = Text.lit "user"
  /\ trim (content q) <> []
  /\ Sql.Messages.TRIM (content q) <> []
  /\ match session_id q with
     | None => True
     | Some v => truthy v = true
     end.
Proof.
  assert (G : forall p, (forall q, In q (requests p) -> well_formed q) ->
              forall q, In q (requests (steps es p)) -> well_formed q).
  { induction es as [|e es IH]; intros p Hp; [exact Hp|].
    change (steps (e :: es) p) with (steps es (step p e)).
    apply IH. destruct e as [v| |i r].
    - exact Hp.
    - cbn [step]. destruct (send_disabled p) eqn:D.
      + rewrite handleSubmit_blank by exact D. exact Hp.
      + rewrite handleSubmit_sends by exact D. cbn [requests].
        intros q' Hq'. apply in_app_or in Hq' as [Hq'|[<-|[]]]; [auto|].
        pose proof (not_disabled_trim p D) as Ht.
        repeat split; cbn [role content session_id]; auto.
        * apply TRIM_of_trim. exact Ht.
        * destruct (truthy (sessionId p)) eqn:T; [exact T | exact I].
    - rewrite (step_settle_requests p i r). exact Hp. }
  apply G. intros q' [].
Qed.

Lemma requests_well_formed_witness :
  let es := [onChange (Text.lit " hi "); onSubmit] in
  let q := mk_request (Text.lit "user") (Text.lit " hi ") None in
  In q (requests (steps es initial))
  /\ role q = Text.lit "user"
  /\ trim (content q) <> []
  /\ Sql.Messages.TRIM (content q) <> []
  /\ match session_id q with
     | None => True
     | Some v => truthy v = true
     end.
Proof.
  split.
  - left. reflexivity.
  - apply (requests_well_formed [onChange (Text.lit " hi "); onSubmit]
             (mk_request (Text.lit "user") (Text.lit " hi ") None)).
    left. reflexivity.
Defined.

(** *** The session id *)

(** X13. The session id changes only when a fetch resolves with a 2xx
    status and a JSON body whose [session_id] is truthy, and then to that
    value: editing the input, submitting, a rejected fetch, a non-2xx
    status or a body that is not JSON never touch it. *)
Theorem sessionId_changes_only_on_reply (p : page) (e : event) :
  sessionId (step p e) <> sessionId p ->
  exists i status data sid,
    e = settle i (resolves status (Some data))
    /\ ok status = true
    /\ get data "session_id" = Some sid
    /\ truthy sid = true
    /\ sessionId (step p e) = sid.
Proof.
  destruct e as [v| |i r]; cbn [step].
  - intros H. exfalso. apply H. reflexivity.
  - intros H. exfalso. apply H. unfold handleSubmit.
    destruct (negb (truthy (str (trim (inputValue p))))); reflexivity.
  - destruct (nth_error (in_flight p) i) as [c|];
      [|intros H; exfalso; apply H; reflexivity].
    unfold resume.
    destruct r as [|status json]; [intros H; exfalso; apply H; reflexivity|].
    destruct (ok status) eqn:Hok; cbn [negb];
      [|intros H; exfalso; apply H; reflexivity].
    destruct json as [data|]; [|intros H; exfalso; apply H; reflexivity].
    destruct (get data "session_id") as [sid|] eqn:Hsid;
      [|intros H; exfalso; apply H; reflexivity].
    destruct (truthy sid) eqn:Ht; cbn [andb].
    + destruct (negb (truthy (closure_sessionId c)));
        destruct (get data "content"); cbn; intros H;
        try (exfalso; apply H; reflexivity);
        exists i, status, data, sid; repeat split; assumption.
    + destruct (get data "content"); intros H; exfalso; apply H; reflexivity.
Qed.

Lemma sessionId_changes_only_on_reply_witness :
  let p := steps [onChange (Text.lit "a"); onSubmit] initial in
  let data := object [("content"%string, str (Text.lit "x"));
                      ("session_id"%string, str (Text.lit "s1"))] in
  let e := settle 0 (resolves 200 (Some data)) in
  sessionId (step p e) <> sessionId p
  /\ exists i status data sid,
       e = settle i (resolves status (Some data))
       /\ ok status = true
       /\ get data "session_id" = Some sid
       /\ truthy sid = true
       /\ sessionId (step p e) = sid.
Proof.
  split.
  - discriminate.
  - apply (sessionId_changes_only_on_reply
             (steps [onChange (Text.lit "a"); onSubmit] initial)
             (settle 0 (resolves 200
                          (Some (object [("content"%string, str (Text.lit "x"));
                                         ("session_id"%string,
                                          str (Text.lit "s1"))]))))).
    discriminate.
Defined.

(** *** ChatInput *)

(** X14. The send button is disabled exactly when a submit would do
    nothing; and a key press changes the page only if it is Enter without
    Shift on an input that is not blank. *)
Theorem send_button_matches_handleSubmit (p : page) :
  (send_disabled p = true <-> handleSubmit p = p)
  /\ (forall key shiftKey,
        onKeyDown key shiftKey p <> p ->
        key = Text.lit "Enter" /\ shiftKey = false /\ send_disabled p = false).
Proof.
  assert (Hiff : send_disabled p = true <-> handleSubmit p = p).
  { split; [apply handleSubmit_blank|].
    intros H. destruct (send_disabled p) eqn:D; [reflexivity|].
    rewrite handleSubmit_sends in H by exact D.
    apply (f_equal (fun q => List.length (messages q))) in H.
    cbn [messages] in H. rewrite length_app in H. simpl in H. lia. }
  split; [exact Hiff|].
  intros key shiftKey H. unfold onKeyDown in H.
  destruct (Text.eqb key (Text.lit "Enter")) eqn:K;
    [|exfalso; apply H; reflexivity].
  destruct shiftKey; [exfalso; apply H; reflexivity|].
  cbn [negb andb] in H. apply TextFacts.eqb_eq in K.
  split; [exact K|]. split; [reflexivity|].
  destruct (send_disabled p) eqn:D; [|reflexivity].
  exfalso. apply H. apply Hiff. reflexivity.
Qed.


Lemma send_button_matches_handleSubmit_witness :
  let p := setInputValue (Text.lit "hi") initial in
  onKeyDown (Text.lit "Enter") false p <> p
  /\ send_disabled p = false.
Proof.
  split.
  - discriminate.
  - apply (proj2 (send_button_matches_handleSubmit
                    (setInputValue (Text.lit "hi") initial))
                 (Text.lit "Enter") false).
    discriminate.
Defined.

(** *** Chat *)

Lemma map_with_index_app {A B : Type} (f : A -> nat -> B) (i : nat)
    (l1 l2 : list A) :
  map_with_index f i (l1 ++ l2)
  = map_with_index f i l1 ++ map_with_index f (i + List.length l1) l2.
Proof.
  revert i; induction l1 as [|x l1 IH]; intros i; simpl.
  - rewrite Nat.add_0_r. reflexivity.
  - rewrite IH. do 3 f_equal. lia.
Qed.

Lemma map_with_index_keys {A B : Type} (g : A -> B) (i : nat) (l : list A) :
  map fst (map_with_index (fun x index => (index, g x)) i l)
  = seq i (List.length l).
Proof.
  revert i; induction l as [|x l IH]; intros i; simpl; [reflexivity|].
  rewrite IH. reflexivity.
Qed.

(** X15. [Chat] shows the welcome screen exactly while the history is
    empty.  Once there is a message, whatever happens next, the rendered
    list is the former one followed by the new messages: the keys are the
    positions 0, 1, 2, ... and a message keeps its key and its
    rendering. *)
Theorem Chat_keys_stable (es : list event) (p : page) :
  (Chat (messages p) = Welcome <-> messages p = [])
  /\ (messages p <> [] ->
      exists items more,
        Chat (messages p) = message_list items
        /\ Chat (messages (steps es p)) = message_list (items ++ more)
        /\ map fst (items ++ more)
           = seq 0 (List.length (messages (steps es p)))).
Proof.
  split.
  - destruct (messages p); simpl; split; congruence.
  - intros Hne. destruct (history_append_only es p) as (l & Hl & _).
    rewrite Hl.
    destruct (messages p) as [|m ms] eqn:E; [congruence|].
    exists (map_with_index (fun msg index => (index, ChatMessage msg)) 0 (m :: ms)),
           (map_with_index (fun msg index => (index, ChatMessage msg))
                           (0 + List.length (m :: ms)) l).
    split; [reflexivity|]. split.
    + change ((m :: ms) ++ l) with (m :: (ms ++ l)) at 1.
      cbn [Chat]. change (m :: (ms ++ l)) with ((m :: ms) ++ l).
      rewrite map_with_index_app. reflexivity.
    + rewrite <- map_with_index_app. apply map_with_index_keys.
Qed.

Lemma Chat_keys_stable_witness :
  let p := steps [onChange (Text.lit "a"); onSubmit] initial in
  let es := [settle 0 rejects] in
  messages p <> []
  /\ exists items more,
       Chat (messages p) = message_list items
       /\ Chat (messages (steps es p)) = message_list (items ++ more)
       /\ map fst (items ++ more) = seq 0 (List.length (messages (steps es p))).
Proof.
  split; [discriminate|].
  apply (proj2 (Chat_keys_stable [settle 0 rejects]
                  (steps [onChange (Text.lit "a"); onSubmit] initial))).
  discriminate.
Defined.

(** *** The theme *)

Lemma is_in_app (t : jsstring) (l1 l2 : list jsstring) :
  Text.is_in t (l1 ++ l2) = Text.is_in t l1 || Text.is_in t l2.
Proof. unfold Text.is_in. apply existsb_app. Qed.

Lemma is_in_removed (t : jsstring) (l : list jsstring) :
  Text.is_in t (classList_remove t l) = false.
Proof.
  unfold Text.is_in, classList_remove.
  induction l as [|a l IH]; simpl; [reflexivity|].
  destruct (Text.eqb a t) eqn:E; simpl; [exact IH|].
  rewrite IH, orb_false_r.
  destruct (Text.eqb t a) eqn:E'; [|reflexivity].
  apply TextFacts.eqb_eq in E'. subst. rewrite TextFacts.eqb_refl in E.
  discriminate.
Qed.

Lemma remove_snoc_same (t : jsstring) (l : list jsstring) :
  classList_remove t (l ++ [t]) = classList_remove t l.
Proof.
  unfold classList_remove. rewrite filter_app. simpl.
  rewrite TextFacts.eqb_refl. simpl. apply app_nil_r.
Qed.

Lemma remove_removed (t : jsstring) (l : list jsstring) :
  classList_remove t (classList_remove t l) = classList_remove t l.
Proof.
  unfold classList_remove. induction l as [|a l IH]; simpl; [reflexivity|].
  destruct (Text.eqb a t) eqn:E; simpl; [exact IH|].
  rewrite E. simpl. f_equal. exact IH.
Qed.

(** X16. After the theme effect has run, the class [dark] is on the
    document element exactly when the theme is "dark"; every other class
    is kept, in its place; and running the effect again changes
    nothing. *)
Theorem theme_effect_sets_dark (theme : jsstring) (classList : list jsstring) :
  Text.is_in (Text.lit "dark") (theme_effect theme classList)
    = Text.eqb theme (Text.lit "dark")
  /\ classList_remove (Text.lit "dark") (theme_effect theme classList)
     = classList_remove (Text.lit "dark") classList
  /\ theme_effect theme (theme_effect theme classList)
     = theme_effect theme classList.
Proof.
  unfold theme_effect. destruct (Text.eqb theme (Text.lit "dark")).
  - unfold classList_add.
    destruct (Text.is_in (Text.lit "dark") classList) eqn:E.
    + rewrite E. auto.
    + rewrite is_in_app, E. cbn. split; [reflexivity|].
      split; [apply remove_snoc_same | reflexivity].
  - split; [apply is_in_removed|].
    split; apply remove_removed.
Qed.

End ChatMore.

(* ===================================================================== *)
(** ** The other two pages *)
(* ===================================================================== *)

Module ChatVariants.
Import Chat ChatFacts ChatMore.

Lemma nth_error_same_length {A B : Type} (l1 : list A) (l2 : list B) (i : nat) :
  List.length l1 = List.length l2 ->
  (nth_error l1 i = None <-> nth_error l2 i = None).
Proof. intros H. rewrite !nth_error_None, H. reflexivity. Qed.

Lemma resume_as_memory (c : call) (r : fetch_result)
    (p : ChatSimple.page) (p1 : page) :
  ChatSimple.matches_memory p p1 ->
  ChatSimple.matches_memory (ChatSimple.resume r p)
                            (resume c (ChatSimple.as_memory_reply r) p1).
Proof.
  intros (Hm & Hi & Hs & Hf & Hq).
  assert (Hcatch : ChatSimple.matches_memory (ChatSimple.catch p) (catch p1)).
  { repeat split; cbn; congruence. }
  destruct r as [|status json]; [exact Hcatch|].
  cbn [ChatSimple.as_memory_reply ChatSimple.resume].
  destruct json as [data|].
  - destruct (get data "response") as [reply|] eqn:E; cbn [resume].
    + destruct (negb (ok status)); [exact Hcatch|].
      cbn. repeat split; cbn; congruence.
    + destruct (negb (ok status)); [exact Hcatch|].
      destruct data; try discriminate; exact Hcatch.
  - cbn [resume]. destruct (negb (ok status)); exact Hcatch.
Qed.

Lemma step_as_memory (e : event) (p : ChatSimple.page) (p1 : page) :
  ChatSimple.matches_memory p p1 ->
  ChatSimple.matches_memory (ChatSimple.step p e)
                            (step p1 (ChatSimple.as_memory_event e)).
Proof.
  intros (Hm & Hi & Hs & Hf & Hq).
  destruct e as [v| |i r]; cbn [ChatSimple.as_memory_event].
  - repeat split; cbn; assumption.
  - cbn [step ChatSimple.step]. unfold handleSubmit, ChatSimple.handleSubmit.
    rewrite Hi.
    destruct (negb (truthy (str (trim (ChatSimple.inputValue p))))).
    + repeat split; assumption.
    + repeat split; cbn; rewrite ?length_app, ?map_app; cbn; congruence.
  - cbn [step ChatSimple.step].
    destruct (nth_error (ChatSimple.in_flight p) i) as [q|] eqn:E.
    + destruct (nth_error (in_flight p1) i) as [c|] eqn:E1.
      * apply resume_as_memory. repeat split; cbn; try assumption.
        pose proof (remove_nth_lt _ _ _ E).
        pose proof (remove_nth_lt _ _ _ E1). lia.
      * apply (nth_error_same_length _ _ i Hf) in E1. congruence.
    + apply (nth_error_same_length _ _ i Hf) in E. rewrite E.
      repeat split; assumption.
Qed.

(** X17. The page that posts to /chat/simple behaves as the page that
    posts to /chat/memory does when each reply [{ response }] is read as
    [{ content }] without a session id: after the same events both show
    the same history and the same input and have sent the same contents,
    and the session id of the /chat/memory page is still null. *)
Theorem simple_page_as_memory_page (es : list event) :
  let p := ChatSimple.steps es ChatSimple.initial in
  let p1 := steps (map ChatSimple.as_memory_event es) initial in
  messages p1 = ChatSimple.messages p
  /\ inputValue p1 = ChatSimple.inputValue p
  /\ sessionId p1 = null
  /\ List.length (in_flight p1) = List.length (ChatSimple.in_flight p)
  /\ map content (requests p1) = map ChatSimple.message (ChatSimple.requests p).
Proof.
  cbv zeta.
  assert (G : forall p p1, ChatSimple.matches_memory p p1 ->
              ChatSimple.matches_memory
                (ChatSimple.steps es p)
                (steps (map ChatSimple.as_memory_event es) p1)).
  { induction es as [|e es IH]; intros p p1 H; [exact H|].
    cbn [map].
    change (ChatSimple.steps (e :: es) p)
      with (ChatSimple.steps es (ChatSimple.step p e)).
    change (steps (ChatSimple.as_memory_event e
                     :: map ChatSimple.as_memory_event es) p1)
      with (steps (map ChatSimple.as_memory_event es)
                  (step p1 (ChatSimple.as_memory_event e))).
    apply IH, step_as_memory, H. }
  apply (G ChatSimple.initial initial). repeat split.
Qed.

Lemma canned_step (p : ChatCanned.page) (e : ChatCanned.event) :
  ChatCanned.replies_simulated p ->
  ChatCanned.replies_simulated (ChatCanned.step p e).
Proof.
  intros [Hb Hc]. destruct e; cbn [ChatCanned.step].
  - split; assumption.
  - unfold ChatCanned.handleSubmit.
    destruct (negb (truthy (str (trim (ChatCanned.inputValue p)))));
      [split; assumption|].
    split; cbn [ChatCanned.messages ChatCanned.timers].
    + intros m Hin Hs. apply in_app_or in Hin as [Hin|[<-|[]]]; [auto|].
      discriminate.
    + rewrite !sent_by_snoc. cbn. lia.
  - destruct (ChatCanned.timers p) as [|n] eqn:T.
    + split; [exact Hb | rewrite T; exact Hc].
    + split; cbn [ChatCanned.messages ChatCanned.timers].
      * intros m Hin Hs. apply in_app_or in Hin as [Hin|[<-|[]]]; auto.
      * rewrite !sent_by_snoc. cbn. lia.
Qed.

(** X18. On the page with the simulated reply every bot message is the
    fixed sentence, and the user messages are as many as the bot
    messages plus the timers that have not fired: each submit that went
    through is answered once, by that sentence, when its timer fires. *)
Theorem simulated_reply_once (es : list ChatCanned.event) :
  let p := ChatCanned.steps es ChatCanned.initial in
  (forall m, In m (ChatCanned.messages p) -> sender m = bot ->
     m = ChatCanned.botMessage)
  /\ List.length (sent_by user (ChatCanned.messages p))
     = (List.length (sent_by bot (ChatCanned.messages p))
        + ChatCanned.timers p)%nat.
Proof.
  cbv zeta.
  assert (G : forall p, ChatCanned.replies_simulated p ->
              ChatCanned.replies_simulated (ChatCanned.steps es p)).
  { induction es as [|e es IH]; intros p Hp; [exact Hp|].
    change (ChatCanned.steps (e :: es) p)
      with (ChatCanned.steps es (ChatCanned.step p e)).
    apply IH, canned_step, Hp. }
  apply (G ChatCanned.initial). split; [intros m []|reflexivity].
Qed.


Lemma simulated_reply_once_witness :
  let es := [ChatCanned.onChange (Text.lit "a"); ChatCanned.onSubmit;
             ChatCanned.timeout] in
  let p := ChatCanned.steps es ChatCanned.initial in
  In ChatCanned.botMessage (ChatCanned.messages p)
  /\ sender ChatCanned.botMessage = bot
  /\ List.length (sent_by user (ChatCanned.messages p))
     = (List.length (sent_by bot (ChatCanned.messages p))
        + ChatCanned.timers p)%nat.
Proof.
  split; [right; left; reflexivity|]. split; [reflexivity|].
  apply (proj2 (simulated_reply_once
                  [ChatCanned.onChange (Text.lit "a"); ChatCanned.onSubmit;
                   ChatCanned.timeout])).
Defined.

End ChatVariants.

(* ===================================================================== *)
(** ** The email check *)
(* ===================================================================== *)

Module EmailFacts.
Import Text Regex Sql SqlFacts SqlIntegrity.

Lemma nullable_lang (r : regex) : nullable r = true -> lang r [].
Proof.
  induction r; simpl; intros H; try discriminate.
  - constructor.
  - apply andb_true_iff in H as [H1 H2].
    change (@nil N) with (@nil N ++ []). constructor; auto.
  - apply orb_true_iff in H as [H|H];
      [apply lang_Alt_l | apply lang_Alt_r]; auto.
  - constructor.
Qed.

Lemma deriv_lang (c : N) (r : regex) (s : text) :
  lang (deriv c r) s -> lang r (c :: s).
Proof.
  revert s; induction r; simpl; intros s H.
  - inversion H.
  - inversion H.
  - destruct (p c) eqn:E; inversion H; subst. constructor. exact E.
  - destruct (nullable r1) eqn:N1.
    + inversion H as [| | |? ? ? HL|? ? ? HR| |]; subst.
      * inversion HL as [| |? ? s1 s2 Ha Hb| | | |]; subst.
        change (c :: s1 ++ s2) with ((c :: s1) ++ s2). constructor; auto.
      * change (c :: s) with ([] ++ c :: s).
        constructor; [apply nullable_lang; exact N1 | auto].
    + inversion H as [| |? ? s1 s2 Ha Hb| | | |]; subst.
      change (c :: s1 ++ s2) with ((c :: s1) ++ s2). constructor; auto.
  - inversion H; subst; [apply lang_Alt_l | apply lang_Alt_r]; auto.
  - inversion H as [| |? ? s1 s2 Ha Hb| | | |]; subst.
    change (c :: s1 ++ s2) with ((c :: s1) ++ s2).
    apply lang_Star_more; auto.
Qed.

(** What the matcher accepts is in the language of the expression. *)
Lemma matches_lang (r : regex) (s : text) : matches r s = true -> lang r s.
Proof.
  revert r; induction s as [|c s IH]; simpl; intros r H.
  - apply nullable_lang. exact H.
  - apply deriv_lang, IH, H.
Qed.

Lemma lang_Star_Class (p : N -> bool) (s : text) :
  lang (Star (Class p)) s -> forallb p s = true.
Proof.
  intros H. remember (Star (Class p)) as r eqn:Er.
  induction H as [| | | | | |r0 s1 s2 H1 _ H2 IH2]; try discriminate.
  - reflexivity.
  - injection Er as ->. inversion H1; subst. simpl.
    rewrite IH2 by reflexivity. rewrite H0. reflexivity.
Qed.

Lemma lang_Plus_Class (p : N -> bool) (s : text) :
  lang (Plus (Class p)) s -> s <> [] /\ forallb p s = true.
Proof.
  unfold Plus. intros H.
  inversion H as [| |? ? s1 s2 H1 H2| | | |]; subst.
  inversion H1; subst. apply lang_Star_Class in H2. simpl. split.
  - discriminate.
  - rewrite H2, H3. reflexivity.
Qed.

Lemma lang_AtLeast2_Class (p : N -> bool) (s : text) :
  lang (AtLeast2 (Class p)) s ->
  (2 <= List.length s)%nat /\ forallb p s = true.
Proof.
  unfold AtLeast2. intros H.
  inversion H as [| |? ? s1 s2 H1 H2| | | |]; subst.
  inversion H2 as [| |? ? s3 s4 H3 H4| | | |]; subst.
  inversion H1; subst. inversion H3; subst.
  apply lang_Star_Class in H4. simpl. split; [lia|].
  rewrite H4, H5, H6. reflexivity.
Qed.

Lemma email_shape (s : text) :
  matches Users.email_pattern s = true ->
  exists local domain tld,
    s = local ++ lit "@" ++ domain ++ lit "." ++ tld
    /\ local <> [] /\ forallb Users.email_local local = true
    /\ domain <> [] /\ forallb Users.email_domain domain = true
    /\ (2 <= List.length tld)%nat /\ forallb alpha tld = true.
Proof.
  intros H. apply matches_lang in H. unfold Users.email_pattern in H.
  inversion H as [| |? ? local s2 Hl H2| | | |]; subst.
  inversion H2 as [| |? ? at_ s3 Ha H3| | | |]; subst.
  inversion H3 as [| |? ? domain s4 Hd H4| | | |]; subst.
  inversion H4 as [| |? ? dot tld Hdot Ht| | | |]; subst.
  apply lang_Plus_Class in Hl as [Hl1 Hl2].
  apply lang_Plus_Class in Hd as [Hd1 Hd2].
  apply lang_AtLeast2_Class in Ht as [Ht1 Ht2].
  inversion Ha as [|? c Hc| | | | |]; subst.
  inversion Hdot as [|? c' Hc'| | | | |]; subst.
  assert (c = 64%N).
  { unfold one_of in Hc. simpl in Hc. rewrite orb_false_r in Hc.
    apply N.eqb_eq. exact Hc. }
  assert (c' = 46%N).
  { unfold one_of in Hc'. simpl in Hc'. rewrite orb_false_r in Hc'.
    apply N.eqb_eq. exact Hc'. }
  subst. exists local, domain, tld. repeat split; assumption.
Qed.

Lemma no_at_sign (p : N -> bool) (s : text) :
  p 64%N = false -> forallb p s = true -> filter (N.eqb 64) s = [].
Proof.
  intros Hp. induction s as [|c s IH]; cbn [filter forallb]; intros H;
    [reflexivity|].
  apply andb_true_iff in H as [Hc Hs].
  destruct (N.eqb 64 c) eqn:E; [|apply IH; exact Hs].
  apply N.eqb_eq in E. subst. congruence.
Qed.

(** X19. Every stored email has the form local@domain.tld: a non-empty
    local part of letters, digits and [._%+-], one [@], a non-empty
    domain of letters, digits, dots and hyphens, a dot, and at least two
    letters; in particular it holds exactly one [@]. *)
Theorem stored_emails_well_formed (tgs : list trigger)
    (w : list (timestamptz * statement)) (u : Users.row) :
  In u (users (execute_all tgs w empty)) ->
  (exists local domain tld,
     Users.email u = local ++ lit "@" ++ domain ++ lit "." ++ tld
     /\ local <> [] /\ forallb Users.email_local local = true
     /\ domain <> [] /\ forallb Users.email_domain domain = true
     /\ (2 <= List.length tld)%nat /\ forallb alpha tld = true)
  /\ List.length (filter (N.eqb 64) (Users.email u)) = 1%nat.
Proof.
  intros Hin.
  destruct (checks_hold_reachable tgs w) as (Hu & _ & _).
  assert (Hc : Users.users_email_format u = true).
  { apply (Hu u Hin "users_email_format"%string). right. left. reflexivity. }
  destruct (email_shape _ Hc) as (local & domain & tld & He & Hl1 & Hl2
                                    & Hd1 & Hd2 & Ht1 & Ht2).
  split; [exists local, domain, tld; repeat split; assumption|].
  rewrite He. rewrite !filter_app.
  rewrite (no_at_sign Users.email_local local eq_refl Hl2).
  rewrite (no_at_sign Users.email_domain domain eq_refl Hd2).
  rewrite (no_at_sign alpha tld eq_refl Ht2).
  reflexivity.
Qed.

Lemma stored_emails_well_formed_witness :
  let u := Users.demo_user 1%N 0 in
  In u (users (execute_all declared [(0, INSERT_INTO_users u)] empty))
  /\ List.length (filter (N.eqb 64) (Users.email u)) = 1%nat.
Proof.
  split.
  - left. reflexivity.
  - apply (stored_emails_well_formed declared
             [(0, INSERT_INTO_users (Users.demo_user 1%N 0))]
             (Users.demo_user 1%N 0)).
    left. reflexivity.
Defined.

End EmailFacts.
